(** * ISIC challenge scoring: the metric engine and the validation core

    A shallow embedding of [isic_challenge_scoring/scoreCommon.py] and
    [isic_challenge_scoring/types.py], with the properties of the written
    specification stated over it.

    Conventions of the embedding.
    - A Python call either returns a value or raises: [result A].  Statements
      are sequenced with the bind of that monad, in source order, so the first
      raise wins exactly as in Python.
    - A Python [float] is a canonical rational [Qc]: the exact value that the
      float64 operation rounds.  Equality of [Qc] is numeric equality, as
      Python's [==] between numbers.  Rounding to nearest keeps order and
      keeps every float64 value, so what is stated of a quotient is what it
      rounds (one quotient of two integers), its bounds, or its order against
      another value -- never an algebraic identity between two quotients,
      which rounding need not keep.
    - A one-dimensional NumPy array of labels is a [list Z]; a boolean array
      holds 0 and 1 ([of_bools]).  Sums are [np.int64] in the source; an array
      that fits in memory cannot make them wrap, so they are plain [Z].
    - An image array carries its dtype ([np.ndarray]): the [uint8] array that
      [np.array] makes of a greyscale image, or a floating-point array.  An
      in-place update is modelled by the updated array it leaves behind.
    - Library code that is not part of the repository -- [PIL.Image.open],
      scikit-learn's [roc_curve], the text of a float, the element [set.pop]
      picks -- is a parameter of the function that calls it.  An opened image
      carries what reading its pixel data will give, a failure included,
      since Pillow reads them only when they are first needed.
    - [task3.py] is not among the sources; its [parseCsv] is modelled from the
      written specification and marked as such. *)

From Stdlib Require Import ZArith QArith Qcanon Lia Ascii DecimalString.
From stdpp Require Import base decidable list numbers strings sorting gmap.

Local Open Scope Z_scope.
#[local] Set Warnings "-clear-no-such-hyp".

(** ** Python exceptions and results *)

Module Py.

(** The exception classes that the modelled code can meet.  The source declares
    [ScoreException] twice: once in [scoreCommon.py] and once in [types.py];
    they are two classes. *)
Inductive pyclass :=
| BaseException
| Exception
| ArithmeticError
| ZeroDivisionError
| LookupError
| KeyError
| IndexError
| TypeError
| ValueError
| OSError
| ScoreException_scoreCommon
| ScoreException_types.

Global Instance pyclass_eq_dec : EqDecision pyclass.
Proof. solve_decision. Defined.

(** The direct base class, as in the [class C(B)] statements of the source and
    of the interpreter. *)
Definition base_class (c : pyclass) : option pyclass :=
  match c with
  | BaseException => None
  | Exception => Some BaseException
  | ArithmeticError => Some Exception
  | ZeroDivisionError => Some ArithmeticError
  | LookupError => Some Exception
  | KeyError => Some LookupError
  | IndexError => Some LookupError
  | TypeError => Some Exception
  | ValueError => Some Exception
  | OSError => Some Exception
  | ScoreException_scoreCommon => Some Exception
  | ScoreException_types => Some Exception
  end.

Fixpoint issubclass_upto (depth : nat) (c d : pyclass) : bool :=
  bool_decide (c = d) ||
  match depth, base_class c with
  | S depth', Some b => issubclass_upto depth' b d
  | _, _ => false
  end.

(** The longest chain of base classes above has four links. *)
Definition issubclass : pyclass → pyclass → bool := issubclass_upto 4.

(** An exception object: one built by a [raise C(msg)] of the source, or one
    raised by the interpreter or a library, whose text is not modelled. *)
Inductive exn :=
| Raised (c : pyclass) (msg : string)
| Library (c : pyclass).

Definition class_of (e : exn) : pyclass :=
  match e with Raised c _ => c | Library c => c end.

Definition isinstance (e : exn) (c : pyclass) : bool := issubclass (class_of e) c.

Inductive result (A : Type) :=
| Ok (a : A)
| Raise (e : exn).
Global Arguments Ok {A} a.
Global Arguments Raise {A} e.

Global Instance result_ret : MRet result := λ A a, Ok a.
Global Instance result_bind : MBind result := λ A B f m,
  match m with Ok a => f a | Raise e => Raise e end.
Global Instance result_fmap : FMap result := λ A B f m,
  match m with Ok a => Ok (f a) | Raise e => Raise e end.

(** [except C:] catches the exceptions that are instances of [C]. *)
Definition caught_by {A} (c : pyclass) (r : result A) : Prop :=
  match r with Ok _ => False | Raise e => isinstance e c = true end.

Definition raises {A} (r : result A) : Prop :=
  match r with Ok _ => False | Raise _ => True end.

End Py.
Import Py.

(** ** The NumPy primitives the scoring code calls *)

Module np.

(** Truth value of an array element: non-zero. *)
Definition truthy (v : Z) : bool := negb (v =? 0).

(** A boolean array, seen as the numbers NumPy computes with. *)
Definition of_bools (a : list bool) : list Z := Z.b2z <$> a.

(** An elementwise binary operation on one-dimensional arrays: shapes must
    agree, except that a one-element array is stretched. *)
Definition elementwise {A B C} (f : A → B → C) (x : list A) (y : list B)
    : result (list C) :=
  if decide (length x = length y) then Ok (zip_with f x y)
  else match x, y with
       | [a], _ => Ok (f a <$> y)
       | _, [b] => Ok ((λ a, f a b) <$> x)
       | _, _ => Raise (Library ValueError)
       end.

Definition logical_and (x y : list Z) : result (list bool) :=
  elementwise (λ a b, truthy a && truthy b) x y.

(** [1 - a] with a Python integer on the left. *)
Definition rsub (k : Z) (a : list Z) : list Z := (λ v, k - v) <$> a.

Definition sum (a : list Z) : Z := foldr Z.add 0 a.

(** [np.sum] of a boolean array counts its [True] entries. *)
Definition sum_bool (a : list bool) : Z := sum (Z.b2z <$> a).

Definition any (a : list Z) : bool := existsb truthy a.
Definition all (a : list Z) : bool := forallb truthy a.

(** An image array.  [np.array] of a greyscale PIL image has dtype [uint8];
    the binarization code is also meaningful on a floating-point array. *)
Inductive ndarray :=
| U8 (px : list Z)
| F64 (px : list Qc).

(** [set(np.unique(image))]: the distinct values, compared as numbers. *)
Definition unique (image : ndarray) : gset Qc :=
  match image with
  | U8 px => list_to_set (Qc_of_Z <$> px)
  | F64 px => list_to_set px
  end.

(** [image /= k].  Under Python 3 this is in-place true division: its float64
    result cannot be stored back into an integer array (casting rule
    'same_kind'), and NumPy raises [TypeError].  [k] is never zero where the
    source divides. *)
Definition itruediv (image : ndarray) (k : Qc) : result ndarray :=
  match image with
  | U8 _ => Raise (Library TypeError)
  | F64 px => Ok (F64 ((λ v, v / k)%Qc <$> px))
  end.

(** [image *= k] with a Python integer: [uint8] arithmetic wraps modulo 256. *)
Definition imul (image : ndarray) (k : Z) : ndarray :=
  match image with
  | U8 px => U8 ((λ v, (v * k) mod 256) <$> px)
  | F64 px => F64 ((λ v, v * Qc_of_Z k)%Qc <$> px)
  end.

End np.

(** [s.pop()] removes and returns an arbitrary element of a set, and raises
    [KeyError] on the empty set.  Which element is returned depends on the
    interpreter's hash table, so the choice is a parameter [pop]. *)
Definition set_pop (pop : gset Qc → option Qc) (s : gset Qc) : result Qc :=
  match pop s with
  | Some v => Ok v
  | None => Raise (Library KeyError)
  end.

(** What every [set.pop] satisfies. *)
Definition pop_spec (pop : gset Qc → option Qc) : Prop :=
  ∀ s, match pop s with Some v => v ∈ s | None => s = ∅ end.

(** One such choice: the first element in the order of [elements]. *)
Definition pop_first (s : gset Qc) : option Qc := head (elements s).

(** Text helpers: a line feed and a double quote as one-character strings. *)
Definition LF : string := String (ascii_of_nat 10) EmptyString.
Definition DQ : string := String (ascii_of_nat 34) EmptyString.

(** [s.replace(old, new)] for one-character [old] and [new]. *)
Fixpoint replace (old new : ascii) (s : string) : string :=
  match s with
  | EmptyString => EmptyString
  | String c s' => String (if decide (c = old) then new else c) (replace old new s')
  end.

(** The characters of a string, and the string of a list of characters. *)
Fixpoint chars (s : string) : list ascii :=
  match s with
  | EmptyString => []
  | String c s' => c :: chars s'
  end.

Fixpoint of_chars (l : list ascii) : string :=
  match l with
  | [] => EmptyString
  | c :: l' => String c (of_chars l')
  end.

(** ** [float] and true division *)

Definition float (n : Z) : Qc := Qc_of_Z n.

(** [a / b] on Python floats raises on a zero divisor; otherwise the result
    is the float64 nearest to the exact quotient given here. *)
Definition truediv (a b : Qc) : result Qc :=
  if decide (b = 0%Qc) then Raise (Library ZeroDivisionError) else Ok (a / b)%Qc.

(** * [scoreCommon.py] *)

Module scoreCommon.

(** [class ScoreException(Exception): pass], and [raise ScoreException(msg)]. *)
Definition ScoreException (msg : string) : exn := Raised ScoreException_scoreCommon msg.

(** ** Loading a segmentation image: [loadSegmentationImage] *)

(** A file path with its final component ([imagePath.name]). *)
Record Path := { path_str : string; path_name : string }.

(** A PIL image as [Image.open] hands it over.  [Image.open] reads the header
    only, so the mode is known; the pixel data (row after row) are read by
    [load()], which [convert] and [np.array] call first, and which raises --
    an [OSError] for a truncated file -- when the data cannot be decoded. *)
Record PILImage := { mode : string; load : result (list Z) }.

(** [image.convert('L')] of a 1-bit image: the pixel data are read, and set
    pixels become 255 in a new image held in memory. *)
Definition convert_L (image : PILImage) : result PILImage :=
  bits ← load image;
  mret {| mode := "L"; load := Ok ((λ v, if v =? 0 then 0 else 255) <$> bits) |}.

(** [np.array(image)] of a greyscale image: the pixel data are read into a
    [uint8] array. *)
Definition np_array (image : PILImage) : result np.ndarray :=
  pixels ← load image;
  mret (np.U8 pixels).

(** The two messages of [loadSegmentationImage]. *)
Definition could_not_decode_message (imagePath : Path) (reason : string) : string :=
  "Could not decode image " +:+ DQ +:+ path_name imagePath +:+ DQ
  +:+ " because: " +:+ DQ +:+ reason +:+ DQ.

Definition not_greyscale_message (imagePath : Path) : string :=
  "Image " +:+ path_name imagePath +:+ " is not single-channel (greyscale).".

(** [Image_open] stands for [PIL.Image.open]: it yields the opened image, or
    fails with an exception of which the source uses [str(e)] only.  Only that
    call stands inside the [try]; [convert] and [np.array] come after it. *)
Definition loadSegmentationImage (Image_open : string → string + PILImage)
    (imagePath : Path) : result np.ndarray :=
  image ← match Image_open (path_str imagePath) with
          | inr image => Ok image
          | inl e => Raise (ScoreException (could_not_decode_message imagePath e))
          end;
  image ← (if decide (mode image = "1") then convert_L image else Ok image);
  if decide (mode image ≠ "L")
  then Raise (ScoreException (not_greyscale_message imagePath))
  else np_array image.

(** ** Binarization: [assertBinaryImage] *)

Definition not_binary_message (imageName : string) : string :=
  "Image " +:+ imageName +:+ " contains values other than 0 and 255.".

Definition assertBinaryImage (pop : gset Qc → option Qc)
    (image : np.ndarray) (imageName : string) : result np.ndarray :=
  let imageValues := np.unique image in
  if decide (imageValues ⊆ {[ 0%Qc; Qc_of_Z 255 ]}) then
    Ok image
  else if decide (size imageValues ≤ 2)%nat then
    highValue ← set_pop pop (imageValues ∖ {[ 0%Qc ]});
    image ← np.itruediv image highValue;
    let image := np.imul image 255 in
    if decide ({[ 0%Qc; Qc_of_Z 255 ]} ⊂ np.unique image)
    then Raise (ScoreException (not_binary_message imageName))
    else Ok image
  else
    Raise (ScoreException (not_binary_message imageName)).

(** ** Confusion-matrix counts: [computeTFPN] *)

Definition computeTFPN (truthBinaryValues testBinaryValues : list Z)
    : result (Z * Z * Z * Z) :=
  let truthBinaryNegativeValues := np.rsub 1 truthBinaryValues in
  let testBinaryNegativeValues := np.rsub 1 testBinaryValues in
  truePositive ← np.sum_bool <$> np.logical_and truthBinaryValues testBinaryValues;
  trueNegative ← np.sum_bool <$>
    np.logical_and truthBinaryNegativeValues testBinaryNegativeValues;
  falsePositive ← np.sum_bool <$>
    np.logical_and truthBinaryNegativeValues testBinaryValues;
  falseNegative ← np.sum_bool <$>
    np.logical_and truthBinaryValues testBinaryNegativeValues;
  mret (truePositive, trueNegative, falsePositive, falseNegative).

(** ** Accuracy, sensitivity, specificity: [computeCommonMetrics] *)

(** A metric record: the dict with keys 'name' and 'value' of the source;
    [None] is Python's [None]. *)
Record Metric := { name : string; value : option Qc }.

Definition accuracy_value (truePositive trueNegative falsePositive falseNegative : Z)
    : result Qc :=
  truediv (float (truePositive + trueNegative))
          (float (truePositive + trueNegative + falsePositive + falseNegative)).

Definition sensitivity_value (truthBinaryValues : list Z)
    (truePositive falseNegative : Z) : result (option Qc) :=
  if np.any truthBinaryValues
  then Some <$> truediv (float truePositive) (float (truePositive + falseNegative))
  else Ok None.

Definition specificity_value (truthBinaryValues : list Z)
    (trueNegative falsePositive : Z) : result (option Qc) :=
  if negb (np.all truthBinaryValues)
  then Some <$> truediv (float trueNegative) (float (trueNegative + falsePositive))
  else Ok None.

(** The list display evaluates its three dicts in order, so a raise in the
    accuracy entry comes before the guards of the other two are looked at. *)
Definition computeCommonMetrics (truthBinaryValues testBinaryValues : list Z)
    : result (list Metric) :=
  '(truePositive, trueNegative, falsePositive, falseNegative) ←
    computeTFPN truthBinaryValues testBinaryValues;
  accuracy ← accuracy_value truePositive trueNegative falsePositive falseNegative;
  sensitivity ← sensitivity_value truthBinaryValues truePositive falseNegative;
  specificity ← specificity_value truthBinaryValues trueNegative falsePositive;
  mret [ {| name := "accuracy"; value := Some accuracy |};
         {| name := "sensitivity"; value := sensitivity |};
         {| name := "specificity"; value := specificity |} ].

(** ** Jaccard index and Dice coefficient: [computeSimilarityMetrics] *)

Definition jaccard_value (truePositive falsePositive falseNegative : Z)
    : result (option Qc) :=
  if negb (truePositive + falseNegative + falsePositive =? 0)
  then Some <$> truediv (float truePositive)
                        (float (truePositive + falseNegative + falsePositive))
  else Ok None.

Definition dice_value (truePositive truthValuesSum testValuesSum : Z)
    : result (option Qc) :=
  if negb (truthValuesSum + testValuesSum =? 0)
  then Some <$> truediv (float (2 * truePositive))
                        (float (truthValuesSum + testValuesSum))
  else Ok None.

Definition computeSimilarityMetrics (truthBinaryValues testBinaryValues : list Z)
    : result (list Metric) :=
  '(truePositive, trueNegative, falsePositive, falseNegative) ←
    computeTFPN truthBinaryValues testBinaryValues;
  let truthValuesSum := np.sum truthBinaryValues in
  let testValuesSum := np.sum testBinaryValues in
  jaccard ← jaccard_value truePositive falsePositive falseNegative;
  dice ← dice_value truePositive truthValuesSum testValuesSum;
  mret [ {| name := "jaccard"; value := jaccard |};
         {| name := "dice"; value := dice |} ].

(** ** Specificity at a fixed sensitivity: [computeSPECMetrics] *)

(** The [for ... enumerate(truePositiveRates)] loop up to its [break]: the
    position of the first rate that reaches the threshold, if any. *)
Fixpoint first_reaching (position : nat) (truePositiveRates : list Qc)
    (sensitivityThreshold : Qc) : option nat :=
  match truePositiveRates with
  | [] => None
  | truePositiveRate :: rest =>
      if decide (sensitivityThreshold ≤ truePositiveRate)%Qc then Some position
      else first_reaching (S position) rest sensitivityThreshold
  end.

(** [a[i]] with a position inside or outside the array. *)
Definition getitem (a : list Qc) (i : nat) : result Qc :=
  match a !! i with
  | Some v => Ok v
  | None => Raise (Library IndexError)
  end.

(** [roc_curve] is scikit-learn's; [format_g] is Python's ['%g' % x].  Both are
    parameters of the model. *)
Definition computeSPECMetrics
    (roc_curve : list Z → list Qc → result (list Qc * list Qc * list Qc))
    (format_g : Qc → string)
    (truthValues : list Z) (testValues : list Qc) (sensitivityThreshold : Qc)
    : result (list Metric) :=
  '(falsePositiveRates, truePositiveRates, thresholds) ←
    roc_curve truthValues testValues;
  trueNegativeRate ←
    match first_reaching 0 truePositiveRates sensitivityThreshold with
    | Some position =>
        falsePositiveRate ← getitem falsePositiveRates position;
        mret (1 - falsePositiveRate)%Qc
    | None => mret 0%Qc
    end;
  mret [ {| name := "spec_at_sens_" +:+
                    replace "."%char "_"%char (format_g (sensitivityThreshold * Qc_of_Z 100)%Qc);
            value := Some trueNegativeRate |} ].

End scoreCommon.

(** * [types.py] *)

Module types.

(** The second [class ScoreException(Exception): pass]. *)
Definition ScoreException (msg : string) : exn := Raised ScoreException_types msg.

Record Score := { overall : Qc; validation : Qc }.

(** [float_str] is Python's text for a float inside an f-string. *)
Definition to_string (float_str : Qc → string) (self : Score) : string :=
  let output := "Overall: " +:+ float_str (overall self) +:+ LF in
  let output := output +:+ ("Validation: " +:+ float_str (validation self)) in
  output.

Definition to_dict (self : Score) : gmap string Qc :=
  {[ "overall" := overall self; "validation" := validation self ]}.

End types.

(** * A model of ['%g' % x] *)

Module percent.

(** The decimal digits of a non-negative integer. *)
Definition digits (n : Z) : string :=
  NilZero.string_of_uint (N.to_uint (Z.to_N n)).

Definition pow10 (e : Z) : Z := 10 ^ e.

(** [10^e ≤ a/d], for positive [a] and [d] and any integer [e]. *)
Definition reaches (a d e : Z) : bool :=
  if 0 <=? e then d * pow10 e <=? a else d <=? a * pow10 (- e).

(** [a/d * 10^s] rounded to the nearest integer, ties to even. *)
Definition round_scaled (a d s : Z) : Z :=
  let num := if 0 <=? s then a * pow10 s else a in
  let den := if 0 <=? s then d else d * pow10 (- s) in
  let q := num / den in
  let r := num mod den in
  if 2 * r <? den then q
  else if den <? 2 * r then q + 1
  else if Z.even q then q else q + 1.

Fixpoint strip_zeros_rev (s : list ascii) : list ascii :=
  match s with
  | "0"%char :: s' => strip_zeros_rev s'
  | _ => s
  end.

(** Trailing zeros removed. *)
Definition strip_zeros (s : string) : string :=
  of_chars (rev (strip_zeros_rev (rev (chars s)))).

Definition with_fraction (whole fraction : string) : string :=
  let fraction := strip_zeros fraction in
  if decide (fraction = "") then whole else whole +:+ "." +:+ fraction.

Definition two_digits (n : Z) : string :=
  if n <? 10 then "0" +:+ digits n else digits n.

(** ['%g' % x] for an exact rational: six significant digits, fixed notation
    when the decimal exponent is at least -4 and below 6, scientific notation
    otherwise, trailing zeros of the fraction dropped. *)
Definition g (x : Qc) : string :=
  let n := Qnum x in
  let d := Z.pos (Qden x) in
  if n =? 0 then "0" else
  let a := Z.abs n in
  let sign := if n <? 0 then "-" else "" in
  let e0 := Z.of_nat (String.length (digits a)) - Z.of_nat (String.length (digits d)) in
  let e := if reaches a d e0 then e0 else e0 - 1 in
  let m := round_scaled a d (5 - e) in
  let e := if m =? pow10 6 then e + 1 else e in
  let m := if m =? pow10 6 then pow10 5 else m in
  let ds := digits m in
  if (e <? -4) || (6 <=? e) then
    sign +:+ with_fraction (String.substring 0 1 ds) (String.substring 1 5 ds)
    +:+ "e" +:+ (if e <? 0 then "-" else "+") +:+ two_digits (Z.abs e)
  else if 0 <=? e then
    sign +:+ with_fraction (String.substring 0 (Z.to_nat (e + 1)) ds)
                           (String.substring (Z.to_nat (e + 1)) (Z.to_nat (5 - e)) ds)
  else
    sign +:+ "0." +:+ of_chars (replicate (Z.to_nat (- e - 1)) "0"%char)
    +:+ strip_zeros ds.

End percent.

(** * [task3.py]: validation of a submitted probability table *)

Module task3.

(** Modelled from the spec: [task3.CATEGORIES], the fixed ordered list of
    diagnosis labels; [task3.py] is not among the sources, the order is the one
    the tests of [parseCsv] compare against. *)
Definition CATEGORIES : list string :=
  ["MEL"; "NV"; "BCC"; "AKIEC"; "BKL"; "DF"; "VASC"].

(** A table as read from the CSV text: its columns in input order, each with
    its header and its cells, one per data row; a blank cell is the empty
    string. *)
Definition RawTable : Type := list (string * list string).

(** A parsed table: the image identifiers in row order, and one column of
    numbers per category. *)
Record ProbabilityTable := {
  index : list string;
  columns : list (string * list Qc)
}.

Definition headers (raw : RawTable) : list string := raw.*1.

(** The cells under a header: the first column carrying it. *)
Fixpoint column (header : string) (raw : RawTable) : option (list string) :=
  match raw with
  | [] => None
  | (h, cells) :: raw' => if decide (h = header) then Some cells else column header raw'
  end.

(** Identifiers and columns are reported in lexicographic order, once each. *)
Definition sorted (l : list string) : list string :=
  merge_sort String.le (remove_dups l).

Fixpoint join (sep : string) (l : list string) : string :=
  match l with
  | [] => ""
  | [s] => s
  | s :: l' => s +:+ sep +:+ join sep l'
  end.

(** The text of a list of names inside a message, as in ['NV', 'VASC']. *)
Definition show (l : list string) : string :=
  "[" +:+ join ", " ((λ s, "'" +:+ s +:+ "'") <$> l) +:+ "]".

(** The identifiers of the rows in which some column has a cell that [bad]
    flags; a row with no cell in a column is flagged through [None]. *)
Definition rows_where (bad : option string → bool)
    (ids : list string) (cols : list (string * list string)) : list string :=
  omap id (imap (λ i image,
                   if existsb (λ col : string * list string, bad (col.2 !! i)) cols
                   then Some image else None) ids).

Definition is_blank (cell : option string) : bool :=
  match cell with
  | Some s => bool_decide (s = "")
  | None => true
  end.

Definition out_of_range (parse_float : string → option Qc) (cell : option string) : bool :=
  match cell ≫= parse_float with
  | Some v => bool_decide (v < 0 ∨ 1 < v)%Qc
  | None => false
  end.

(** Modelled from the spec: the checks of [parseCsv] on the cells, once the
    columns are those of the category set, in the order the specification
    gives: missing values, then non-numeric values, then values outside
    [0.0, 1.0].  [parse_float] reads a cell as a floating-point number. *)
Definition checkValues (parse_float : string → option Qc)
    (ids : list string) (cols : list (string * list string))
    : result ProbabilityTable :=
  let missingRows := rows_where is_blank ids cols in
  if decide (missingRows ≠ []) then
    Raise (scoreCommon.ScoreException
      ("Missing value(s) in CSV for images: " +:+ show (sorted missingRows) +:+ "."))
  else
  let nonFloatColumns :=
    (filter (λ col : string * list string,
               existsb (λ cell, bool_decide (parse_float cell = None)) col.2) cols).*1 in
  if decide (nonFloatColumns ≠ []) then
    Raise (scoreCommon.ScoreException
      ("CSV contains non-floating-point value(s) in columns: "
       +:+ show (sorted nonFloatColumns) +:+ "."))
  else
  let outOfRangeRows := rows_where (out_of_range parse_float) ids cols in
  if decide (outOfRangeRows ≠ []) then
    Raise (scoreCommon.ScoreException
      ("Values in CSV are outside the interval [0.0, 1.0] for images: "
       +:+ show (sorted outOfRangeRows) +:+ "."))
  else
    Ok {| index := ids;
          columns := (λ col : string * list string,
                        (col.1, omap parse_float col.2)) <$> cols |}.

(** Modelled from the spec: [task3.parseCsv], absent from the sources.  It
    requires the identifier column "image", requires the other headers to be
    exactly the category set, puts the columns in the canonical order of
    [CATEGORIES], and then checks the cells.  One failure is reported per call,
    as the [ScoreException] the tests import from [scoreCommon]. *)
Definition parseCsv (parse_float : string → option Qc) (raw : RawTable)
    : result ProbabilityTable :=
  match column "image" raw with
  | None =>
      Raise (scoreCommon.ScoreException
        ("Missing column in CSV: " +:+ DQ +:+ "image" +:+ DQ +:+ "."))
  | Some ids =>
      let given := filter (λ h, h ≠ "image") (headers raw) in
      let missingColumns := filter (λ c, c ∉ given) CATEGORIES in
      if decide (missingColumns ≠ []) then
        Raise (scoreCommon.ScoreException
          ("Missing columns in CSV: " +:+ show (sorted missingColumns) +:+ "."))
      else
      let extraColumns := filter (λ h, h ∉ CATEGORIES) given in
      if decide (extraColumns ≠ []) then
        Raise (scoreCommon.ScoreException
          ("Extra columns in CSV: " +:+ show (sorted extraColumns) +:+ "."))
      else
        checkValues parse_float ids
          ((λ c, (c, default [] (column c raw))) <$> CATEGORIES)
  end.

End task3.

(** * Concrete readers and tables used to run the model *)

(** A reader of the numerals that occur in the tables of the test suite. *)
Definition parse_numeral (s : string) : option Qc :=
  if decide (s = "0.0") then Some 0%Qc
  else if decide (s = "1.0") then Some 1%Qc
  else if decide (s = "100.0") then Some (Qc_of_Z 100)
  else if decide (s = "-1.0") then Some (Qc_of_Z (-1))
  else None.

(** The table of [test_parseCsv_reorderedColumns], as submitted. *)
Definition reordered_table : task3.RawTable :=
  [ ("NV", ["0.0"]); ("BCC", ["0.0"]); ("BKL", ["0.0"]); ("DF", ["0.0"]);
    ("AKIEC", ["0.0"]); ("MEL", ["1.0"]); ("VASC", ["0.0"]);
    ("image", ["ISIC_0000123"]) ].

(** The same columns with the identifier first and the categories in order. *)
Definition canonical_table : task3.RawTable :=
  [ ("image", ["ISIC_0000123"]); ("MEL", ["1.0"]); ("NV", ["0.0"]);
    ("BCC", ["0.0"]); ("AKIEC", ["0.0"]); ("BKL", ["0.0"]); ("DF", ["0.0"]);
    ("VASC", ["0.0"]) ].

(** What the test expects of both. *)
Definition expected_table : task3.ProbabilityTable :=
  {| task3.index := ["ISIC_0000123"];
     task3.columns :=
       [ ("MEL", [1%Qc]); ("NV", [0%Qc]); ("BCC", [0%Qc]); ("AKIEC", [0%Qc]);
         ("BKL", [0%Qc]); ("DF", [0%Qc]); ("VASC", [0%Qc]) ] |}.

(** A stand-in for [roc_curve] that answers with the curve of two perfectly
    separated samples (labels 1, 0; scores 0.9, 0.1): the points (0, 0),
    (0, 1), (1, 1). *)
Definition roc_curve_separated (y_true : list Z) (y_score : list Qc)
    : result (list Qc * list Qc * list Qc) :=
  Ok ([0%Qc; 0%Qc; 1%Qc], [0%Qc; 1%Qc; 1%Qc],
      [Q2Qc (19 # 10); Q2Qc (9 # 10); Q2Qc (1 # 10)]).

(** [Image.open] finding no image, and finding a colour image. *)
Definition open_fails (path : string) : string + scoreCommon.PILImage :=
  inl "cannot identify image file".

Definition open_colour (path : string) : string + scoreCommon.PILImage :=
  inr {| scoreCommon.mode := "RGB"; scoreCommon.load := Ok [0; 0; 0] |}.

(** [Image.open] finding a greyscale mask with the values 0 and 128. *)
Definition open_grey (path : string) : string + scoreCommon.PILImage :=
  inr {| scoreCommon.mode := "L"; scoreCommon.load := Ok [0; 128; 128; 0] |}.

(** [Image.open] finding a greyscale mask that is binary already, and finding
    a 1-bit image. *)
Definition open_binary (path : string) : string + scoreCommon.PILImage :=
  inr {| scoreCommon.mode := "L"; scoreCommon.load := Ok [0; 255; 255; 0] |}.

Definition open_one_bit (path : string) : string + scoreCommon.PILImage :=
  inr {| scoreCommon.mode := "1"; scoreCommon.load := Ok [0; 1; 1; 0] |}.



(** A stand-in for [roc_curve] that answers with the curve of four samples
    whose classes overlap (labels 1, 0, 1, 0; scores 0.9, 0.8, 0.7, 0.1): the
    points (0, 0), (0, 0.5), (0.5, 0.5), (0.5, 1), (1, 1). *)
Definition roc_curve_overlapping (y_true : list Z) (y_score : list Qc)
    : result (list Qc * list Qc * list Qc) :=
  Ok ([0%Qc; 0%Qc; Q2Qc (1 # 2); Q2Qc (1 # 2); 1%Qc],
      [0%Qc; Q2Qc (1 # 2); Q2Qc (1 # 2); 1%Qc; 1%Qc],
      [Q2Qc (19 # 10); Q2Qc (9 # 10); Q2Qc (8 # 10); Q2Qc (7 # 10); Q2Qc (1 # 10)]).

(** * The words of the specification *)

(** The counts as the specification words them: the number of positions at
    which the ground truth and the prediction take a given pair of values. *)
Definition positions (t p : bool) (truth test : list bool) : Z :=
  Z.of_nat (length (filter (λ x : bool * bool, x = (t, p)) (zip truth test))).


(** Number of [True] entries of a boolean array. *)
Definition positives (a : list bool) : Z :=
  Z.of_nat (length (filter (λ b : bool, b = true) a)).

(** Number of line feeds in a list of characters. *)
Definition line_feeds (l : list ascii) : nat :=
  length (filter (λ c, c = ascii_of_nat 10) l).

(** * Properties of the metric engine *)

Import scoreCommon.

Lemma elementwise_same_length {A B C} (f : A → B → C) x y :
  length x = length y → np.elementwise f x y = Ok (zip_with f x y).
Proof. intros H. unfold np.elementwise. by rewrite decide_True. Qed.

Lemma sum_bool_cons b a : np.sum_bool (b :: a) = Z.b2z b + np.sum_bool a.
Proof. reflexivity. Qed.

Lemma positions_cons t p a b truth test :
  positions t p (a :: truth) (b :: test) =
  (if decide ((a, b) = (t, p)) then 1 else 0) + positions t p truth test.
Proof.
  unfold positions. simpl. rewrite filter_cons.
  destruct (decide ((a, b) = (t, p))); simpl; lia.
Qed.

Lemma sum_and_positions (t p : bool) (truth test : list bool) :
  length truth = length test →
  np.sum_bool
    (zip_with (λ a b, np.truthy a && np.truthy b)
       (if t then np.of_bools truth else np.rsub 1 (np.of_bools truth))
       (if p then np.of_bools test else np.rsub 1 (np.of_bools test)))
  = positions t p truth test.
Proof.
  revert test. induction truth as [|a truth IH]; intros [|b test] Hlen;
    simplify_eq/=.
  - by destruct t, p.
  - specialize (IH test Hlen). rewrite positions_cons, <- IH.
    destruct t, p; simpl; rewrite sum_bool_cons; f_equal;
      destruct a, b; reflexivity.
Qed.

Lemma positions_nonneg t p truth test : 0 ≤ positions t p truth test.
Proof. unfold positions. lia. Qed.

Lemma positions_total (truth test : list bool) :
  length truth = length test →
  positions true true truth test + positions false false truth test
  + positions false true truth test + positions true false truth test
  = Z.of_nat (length truth).
Proof.
  revert test. induction truth as [|a truth IH]; intros [|b test] Hlen;
    simplify_eq/=; [reflexivity|].
  specialize (IH test Hlen). rewrite !positions_cons.
  destruct a, b; simpl; lia.
Qed.

Lemma computeTFPN_of_bools (truth test : list bool) :
  length truth = length test →
  computeTFPN (np.of_bools truth) (np.of_bools test) =
    Ok (positions true true truth test, positions false false truth test,
        positions false true truth test, positions true false truth test).
Proof.
  intros Hlen. unfold computeTFPN, np.logical_and.
  rewrite !elementwise_same_length
    by (unfold np.rsub, np.of_bools; rewrite ?length_fmap; exact Hlen).
  pose proof (sum_and_positions true true truth test Hlen) as HTP.
  pose proof (sum_and_positions false false truth test Hlen) as HTN.
  pose proof (sum_and_positions false true truth test Hlen) as HFP.
  pose proof (sum_and_positions true false truth test Hlen) as HFN.
  simpl in HTP, HTN, HFP, HFN. simpl. by rewrite HTP, HTN, HFP, HFN.
Qed.

Lemma float_eq_0 n : float n = 0%Qc ↔ n = 0.
Proof. unfold float. rewrite <- Z2Qc_inj_0. apply Z2Qc_inj_iff. Qed.

Lemma truediv_nonzero a n : n ≠ 0 → truediv a (float n) = Ok (a / float n)%Qc.
Proof.
  intros Hn. unfold truediv. rewrite decide_False; [done|]. by rewrite float_eq_0.
Qed.

Lemma truediv_zero a : truediv a (float 0) = Raise (Library ZeroDivisionError).
Proof. reflexivity. Qed.

Lemma any_of_bools (a : list bool) : np.any (np.of_bools a) = bool_decide (true ∈ a).
Proof.
  induction a as [|b a IH]; [done|].
  change (np.any (np.of_bools (b :: a)))
    with (np.truthy (Z.b2z b) || np.any (np.of_bools a)).
  rewrite IH. destruct b.
  - symmetry. apply bool_decide_eq_true_2. left.
  - apply bool_decide_ext. rewrite elem_of_cons.
    split; [by right | by intros [?|?]].
Qed.

Lemma all_of_bools (a : list bool) :
  np.all (np.of_bools a) = negb (bool_decide (false ∈ a)).
Proof.
  induction a as [|b a IH]; [done|].
  change (np.all (np.of_bools (b :: a)))
    with (np.truthy (Z.b2z b) && np.all (np.of_bools a)).
  rewrite IH. destruct b.
  - cbn [np.truthy Z.b2z Z.eqb negb andb]. f_equal.
    apply bool_decide_ext. rewrite elem_of_cons.
    split; [by right | by intros [?|?]].
  - symmetry. apply negb_false_iff, bool_decide_eq_true_2. left.
Qed.

Lemma sum_of_bools (a : list bool) : np.sum (np.of_bools a) = positives a.
Proof.
  unfold positives. induction a as [|b a IH]; [done|].
  change (np.sum (np.of_bools (b :: a))) with (Z.b2z b + np.sum (np.of_bools a)).
  rewrite IH, filter_cons. destruct b; simpl; lia.
Qed.

(** Positions with ground truth [t], whatever the prediction. *)
Lemma positions_row_pos (t : bool) (truth test : list bool) :
  length truth = length test → t ∈ truth →
  0 < positions t true truth test + positions t false truth test.
Proof.
  revert test. induction truth as [|a truth IH]; intros [|b test] Hlen Hin;
    simplify_eq/=; [by apply elem_of_nil in Hin|].
  rewrite !positions_cons.
  pose proof (positions_nonneg t true truth test).
  pose proof (positions_nonneg t false truth test).
  apply elem_of_cons in Hin as [->|Hin].
  - destruct a, b; simpl; lia.
  - specialize (IH test Hlen Hin).
    repeat case_decide; lia.
Qed.

Lemma positives_truth (truth test : list bool) :
  length truth = length test →
  positives truth = positions true true truth test + positions true false truth test.
Proof.
  unfold positives.
  revert test. induction truth as [|a truth IH]; intros [|b test] Hlen;
    simplify_eq/=; [done|].
  rewrite !positions_cons, filter_cons. specialize (IH test Hlen).
  destruct a, b; simpl in *; lia.
Qed.

Lemma positives_test (truth test : list bool) :
  length truth = length test →
  positives test = positions true true truth test + positions false true truth test.
Proof.
  unfold positives.
  revert test. induction truth as [|a truth IH]; intros [|b test] Hlen;
    simplify_eq/=; [done|].
  rewrite !positions_cons, filter_cons. specialize (IH test Hlen).
  destruct a, b; simpl in *; lia.
Qed.

(** C1: for every pair of equal-length boolean arrays, [computeTFPN] returns
    the four counts -- positions where both are true, where both are false,
    where the truth is false and the prediction true, where the truth is true
    and the prediction false -- and the four counts add up to the common
    length. *)
Theorem computeTFPN_counts (truth test : list bool) :
  length truth = length test →
  computeTFPN (np.of_bools truth) (np.of_bools test) =
    Ok (positions true true truth test, positions false false truth test,
        positions false true truth test, positions true false truth test)
  ∧ positions true true truth test + positions false false truth test
    + positions false true truth test + positions true false truth test
    = Z.of_nat (length truth).
Proof.
  intros Hlen. split.
  - by apply computeTFPN_of_bools.
  - by apply positions_total.
Qed.

Lemma computeTFPN_counts_witness :
  computeTFPN (np.of_bools [true; true; false; false; true])
              (np.of_bools [true; false; true; false; true]) = Ok (2, 1, 1, 1)
  ∧ 2 + 1 + 1 + 1 = 5.
Proof.
  exact (computeTFPN_counts [true; true; false; false; true]
           [true; false; true; false; true] eq_refl).
Defined.

Lemma guarded_truediv (guard : bool) a n :
  (guard = true → n ≠ 0) →
  (if guard then Some <$> truediv a (float n) else Ok None)
  = Ok (if guard then Some (a / float n)%Qc else None).
Proof.
  intros Hn. destruct guard; [|done]. by rewrite truediv_nonzero by auto.
Qed.

Lemma computeCommonMetrics_of_bools (truth test : list bool) :
  length truth = length test → truth ≠ [] →
  computeCommonMetrics (np.of_bools truth) (np.of_bools test) =
    Ok [ {| name := "accuracy";
            value := Some (float (positions true true truth test
                                  + positions false false truth test)
                           / float (Z.of_nat (length truth)))%Qc |};
         {| name := "sensitivity";
            value := if bool_decide (true ∈ truth)
                     then Some (float (positions true true truth test)
                                / float (positions true true truth test
                                         + positions true false truth test))%Qc
                     else None |};
         {| name := "specificity";
            value := if bool_decide (false ∈ truth)
                     then Some (float (positions false false truth test)
                                / float (positions false false truth test
                                         + positions false true truth test))%Qc
                     else None |} ].
Proof.
  intros Hlen Hne. unfold computeCommonMetrics.
  rewrite (computeTFPN_of_bools _ _ Hlen). cbn [mbind result_bind].
  unfold accuracy_value, sensitivity_value, specificity_value.
  rewrite (positions_total _ _ Hlen).
  rewrite (truediv_nonzero _ (Z.of_nat (length truth)))
    by (destruct truth; [done|cbn [length]; lia]).
  cbn [mbind result_bind].
  rewrite any_of_bools, all_of_bools, negb_involutive.
  rewrite !guarded_truediv; [reflexivity|..];
    intros Hin%bool_decide_eq_true;
    pose proof (positions_row_pos _ truth test Hlen Hin); lia.
Qed.

(** C2: on equal-length non-empty boolean arrays [computeCommonMetrics]
    returns its three records; sensitivity is [None] exactly when the ground
    truth has no positive sample and is TP/(TP+FN) otherwise; specificity is
    [None] exactly when the ground truth has no negative sample and is
    TN/(TN+FP) otherwise; where a quotient is taken its divisor is not zero. *)
Theorem computeCommonMetrics_guards (truth test : list bool) :
  length truth = length test → truth ≠ [] →
  let TP := positions true true truth test in
  let TN := positions false false truth test in
  let FP := positions false true truth test in
  let FN := positions true false truth test in
  ∃ accuracy sensitivity specificity,
    computeCommonMetrics (np.of_bools truth) (np.of_bools test) =
      Ok [ {| name := "accuracy"; value := Some accuracy |};
           {| name := "sensitivity"; value := sensitivity |};
           {| name := "specificity"; value := specificity |} ]
    ∧ (sensitivity = None ↔ true ∉ truth)
    ∧ (true ∈ truth →
       TP + FN ≠ 0 ∧ sensitivity = Some (float TP / float (TP + FN))%Qc)
    ∧ (specificity = None ↔ false ∉ truth)
    ∧ (false ∈ truth →
       TN + FP ≠ 0 ∧ specificity = Some (float TN / float (TN + FP))%Qc).
Proof.
  intros Hlen Hne TP TN FP FN.
  eexists _, _, _. split; [by apply computeCommonMetrics_of_bools|].
  split; [|split; [|split]].
  - by case_bool_decide.
  - intros Hin. split.
    + pose proof (positions_row_pos true truth test Hlen Hin). subst TP FN. lia.
    + by rewrite bool_decide_eq_true_2.
  - by case_bool_decide.
  - intros Hin. split.
    + pose proof (positions_row_pos false truth test Hlen Hin). subst TN FP. lia.
    + by rewrite bool_decide_eq_true_2.
Qed.

Lemma computeCommonMetrics_guards_witness :
  let truth := [true; false; true] in
  let test := [true; true; false] in
  ∃ accuracy sensitivity specificity,
    computeCommonMetrics (np.of_bools truth) (np.of_bools test) =
      Ok [ {| name := "accuracy"; value := Some accuracy |};
           {| name := "sensitivity"; value := sensitivity |};
           {| name := "specificity"; value := specificity |} ]
    ∧ (sensitivity = None ↔ true ∉ truth)
    ∧ (true ∈ truth →
       positions true true truth test + positions true false truth test ≠ 0
       ∧ sensitivity = Some (float (positions true true truth test)
                             / float (positions true true truth test
                                      + positions true false truth test))%Qc)
    ∧ (specificity = None ↔ false ∉ truth)
    ∧ (false ∈ truth →
       positions false false truth test + positions false true truth test ≠ 0
       ∧ specificity = Some (float (positions false false truth test)
                             / float (positions false false truth test
                                      + positions false true truth test))%Qc).
Proof.
  apply (computeCommonMetrics_guards [true; false; true] [true; true; false]).
  - reflexivity.
  - discriminate.
Defined.

Lemma positives_nonneg a : 0 ≤ positives a.
Proof. unfold positives. lia. Qed.

Lemma positives_all_false (a : list bool) :
  (∀ b, b ∈ a → b = false) → positives a = 0.
Proof.
  unfold positives. induction a as [|b a IH]; intros Ha; [done|].
  rewrite filter_cons. rewrite (Ha b) by left. rewrite decide_False by done.
  apply IH. intros b' Hb'. apply Ha. by right.
Qed.

Lemma guarded_truediv_neqb (d : Z) a :
  (if negb (d =? 0) then Some <$> truediv a (float d) else Ok None)
  = Ok (if decide (d = 0) then None else Some (a / float d)%Qc).
Proof.
  rewrite guarded_truediv.
  - destruct (Z.eqb_spec d 0); [by rewrite decide_True|by rewrite decide_False].
  - intros Hd%negb_true_iff. by apply Z.eqb_neq.
Qed.

(** C3: on equal-length boolean arrays [computeSimilarityMetrics] reports
    jaccard as TP/(TP+FN+FP), and as [None] exactly when TP+FN+FP = 0; it
    reports dice as 2*TP over the number of positives of the truth plus the
    number of positives of the prediction, and as [None] exactly when that sum
    is 0; when both masks are all zero, both sums are 0 and both metrics are
    [None]. *)
Theorem computeSimilarityMetrics_values (truth test : list bool) :
  length truth = length test →
  let TP := positions true true truth test in
  let FP := positions false true truth test in
  let FN := positions true false truth test in
  computeSimilarityMetrics (np.of_bools truth) (np.of_bools test) =
    Ok [ {| name := "jaccard";
            value := if decide (TP + FN + FP = 0) then None
                     else Some (float TP / float (TP + FN + FP))%Qc |};
         {| name := "dice";
            value := if decide (positives truth + positives test = 0) then None
                     else Some (float (2 * TP)
                                / float (positives truth + positives test))%Qc |} ]
  ∧ ((∀ b, b ∈ truth → b = false) → (∀ b, b ∈ test → b = false) →
     computeSimilarityMetrics (np.of_bools truth) (np.of_bools test) =
       Ok [ {| name := "jaccard"; value := None |};
            {| name := "dice"; value := None |} ]).
Proof.
  intros Hlen TP FP FN.
  assert (Heq : computeSimilarityMetrics (np.of_bools truth) (np.of_bools test) =
    Ok [ {| name := "jaccard";
            value := if decide (TP + FN + FP = 0) then None
                     else Some (float TP / float (TP + FN + FP))%Qc |};
         {| name := "dice";
            value := if decide (positives truth + positives test = 0) then None
                     else Some (float (2 * TP)
                                / float (positives truth + positives test))%Qc |} ]).
  { unfold computeSimilarityMetrics.
    rewrite (computeTFPN_of_bools _ _ Hlen). cbn [mbind result_bind].
    unfold jaccard_value, dice_value. rewrite !sum_of_bools.
    rewrite !guarded_truediv_neqb. reflexivity. }
  split; [exact Heq|].
  intros Htruth Htest. rewrite Heq.
  pose proof (positives_all_false _ Htruth) as H1.
  pose proof (positives_all_false _ Htest) as H2.
  pose proof (positives_truth _ _ Hlen) as H3.
  pose proof (positives_test _ _ Hlen) as H4.
  pose proof (positions_nonneg true true truth test).
  pose proof (positions_nonneg true false truth test).
  pose proof (positions_nonneg false true truth test).
  rewrite !decide_True by (subst TP FP FN; lia). reflexivity.
Qed.

Lemma computeSimilarityMetrics_values_witness :
  let truth := [false; false; false] in
  let test := [false; false; false] in
  let TP := positions true true truth test in
  let FP := positions false true truth test in
  let FN := positions true false truth test in
  computeSimilarityMetrics (np.of_bools truth) (np.of_bools test) =
    Ok [ {| name := "jaccard";
            value := if decide (TP + FN + FP = 0) then None
                     else Some (float TP / float (TP + FN + FP))%Qc |};
         {| name := "dice";
            value := if decide (positives truth + positives test = 0) then None
                     else Some (float (2 * TP)
                                / float (positives truth + positives test))%Qc |} ]
  ∧ ((∀ b, b ∈ truth → b = false) → (∀ b, b ∈ test → b = false) →
     computeSimilarityMetrics (np.of_bools truth) (np.of_bools test) =
       Ok [ {| name := "jaccard"; value := None |};
            {| name := "dice"; value := None |} ]).
Proof.
  apply (computeSimilarityMetrics_values [false; false; false] [false; false; false]).
  reflexivity.
Defined.

(** C10: on empty arrays [computeCommonMetrics] returns no list: the accuracy
    entry divides 0 by 0 and the [ZeroDivisionError] -- an arithmetic error,
    not a [ScoreException] of either module -- leaves the function, although
    on that input the guard of sensitivity and the guard of specificity would
    both select [None]; on non-empty equal-length boolean arrays the accuracy
    entry is computed. *)
Theorem computeCommonMetrics_empty :
  computeTFPN [] [] = Ok (0, 0, 0, 0)
  ∧ accuracy_value 0 0 0 0 = Raise (Library ZeroDivisionError)
  ∧ computeCommonMetrics [] [] = Raise (Library ZeroDivisionError)
  ∧ isinstance (Library ZeroDivisionError) ArithmeticError = true
  ∧ isinstance (Library ZeroDivisionError) ScoreException_scoreCommon = false
  ∧ isinstance (Library ZeroDivisionError) ScoreException_types = false
  ∧ sensitivity_value [] 0 0 = Ok None
  ∧ specificity_value [] 0 0 = Ok None
  ∧ (∀ truth test : list bool, length truth = length test → truth ≠ [] →
     ∃ accuracy,
       accuracy_value (positions true true truth test)
         (positions false false truth test) (positions false true truth test)
         (positions true false truth test) = Ok accuracy).
Proof.
  repeat split; try reflexivity.
  intros truth test Hlen Hne. unfold accuracy_value.
  rewrite (positions_total _ _ Hlen).
  rewrite truediv_nonzero by (destruct truth; [done|cbn [length]; lia]).
  by eexists.
Qed.

(** * Properties of the binarization *)

Lemma Qc_of_Z_neq (n m : Z) : n ≠ m → Qc_of_Z n ≠ Qc_of_Z m.
Proof. intros Hnm H. by apply Z2Qc_inj in H. Qed.

Lemma Qc_zero_of_Z : 0%Qc = Qc_of_Z 0.
Proof. symmetry. apply Z2Qc_inj_0. Qed.

Lemma binary_values_size : size ({[ 0%Qc; Qc_of_Z 255 ]} : gset Qc) = 2%nat.
Proof.
  rewrite size_union, !size_singleton; [done|].
  apply disjoint_singleton_l, not_elem_of_singleton.
  rewrite Qc_zero_of_Z. by apply Qc_of_Z_neq.
Qed.

Lemma size_list_to_set_le (l : list Qc) :
  (size (list_to_set l : gset Qc) ≤ length l)%nat.
Proof.
  induction l as [|x l IH].
  - rewrite list_to_set_nil, size_empty. done.
  - rewrite list_to_set_cons, size_union_alt, size_singleton. cbn [length].
    assert (size (list_to_set l ∖ {[x]} : gset Qc) ≤ size (list_to_set l : gset Qc))%nat
      by apply subseteq_size, subseteq_difference_l, reflexivity.
    lia.
Qed.

Lemma size_set_map_le (f : Qc → Qc) (s : gset Qc) :
  (size (set_map f s : gset Qc) ≤ size s)%nat.
Proof.
  unfold set_map. etrans; [apply size_list_to_set_le|].
  by rewrite length_fmap.
Qed.





(** The values of a floating-point image after [image /= k; image *= 255]. *)
Lemma unique_rescaled (px : list Qc) (k : Qc) :
  np.unique (np.imul (np.F64 ((λ v, v / k)%Qc <$> px)) 255)
  = set_map (λ v, v / k * Qc_of_Z 255)%Qc (np.unique (np.F64 px)).
Proof.
  simpl. rewrite <- list_fmap_compose. apply list_to_set_fmap_L.
Qed.


Lemma set_pop_nonempty pop (s : gset Qc) :
  pop_spec pop → s ≠ ∅ → ∃ v, set_pop pop s = Ok v ∧ v ∈ s.
Proof.
  intros Hpop Hs. unfold set_pop. specialize (Hpop s).
  destruct (pop s) as [w|]; [by exists w | done].
Qed.

Lemma pop_first_spec : pop_spec pop_first.
Proof.
  intros s. unfold pop_first. destruct (elements s) as [|v l] eqn:Hl; simpl.
  - by apply elements_empty_inv, leibniz_equiv in Hl.
  - apply elem_of_elements. rewrite Hl. left.
Qed.

(** An image whose values are among 0 and 255 is returned as it is. *)
Lemma assertBinaryImage_binary pop image imageName :
  np.unique image ⊆ {[ 0%Qc; Qc_of_Z 255 ]} →
  assertBinaryImage pop image imageName = Ok image.
Proof. intros H. unfold assertBinaryImage. by rewrite decide_True. Qed.

(** More than two distinct values: the [else] branch raises. *)
Lemma assertBinaryImage_many_values pop image imageName :
  (2 < size (np.unique image))%nat →
  assertBinaryImage pop image imageName =
    Raise (ScoreException (not_binary_message imageName)).
Proof.
  intros Hsize. unfold assertBinaryImage.
  rewrite decide_False.
  - rewrite decide_False; [done|lia].
  - intros Hsub%subseteq_size. rewrite binary_values_size in Hsub. lia.
Qed.

(** With at most two distinct values no path reaches a [raise ScoreException]:
    the re-verification asks for a proper superset of {0, 255}, which needs
    three values. *)
Lemma assertBinaryImage_few_values pop image imageName :
  (size (np.unique image) ≤ 2)%nat →
  (∃ image', assertBinaryImage pop image imageName = Ok image')
  ∨ (∃ c, assertBinaryImage pop image imageName = Raise (Library c)).
Proof.
  intros Hsize. unfold assertBinaryImage.
  destruct (decide (np.unique image ⊆ _)); [left; by eexists|].
  rewrite decide_True by done.
  unfold set_pop. destruct (pop _) as [highValue|]; [|right; by eexists].
  cbn [mbind result_bind].
  destruct image as [px|px]; [right; by eexists|].
  cbn [np.itruediv mbind result_bind].
  rewrite decide_False; [left; by eexists|].
  intros Hsub%subset_size.
  rewrite binary_values_size, unique_rescaled in Hsub.
  pose proof (size_set_map_le (λ v, v / highValue * Qc_of_Z 255)%Qc
                (np.unique (np.F64 px))).
  lia.
Qed.


(** The same image as a [uint8] array, as [loadSegmentationImage] returns it:
    the in-place division raises [TypeError]. *)
Lemma assertBinaryImage_uint8_needs_rescale pop (px : list Z) imageName :
  pop_spec pop →
  ¬ np.unique (np.U8 px) ⊆ {[ 0%Qc; Qc_of_Z 255 ]} →
  (size (np.unique (np.U8 px)) ≤ 2)%nat →
  assertBinaryImage pop (np.U8 px) imageName = Raise (Library TypeError).
Proof.
  intros Hpop Hnot Hsize. unfold assertBinaryImage.
  rewrite decide_False, decide_True by done.
  destruct (set_pop_nonempty pop (np.unique (np.U8 px) ∖ {[ 0%Qc ]}) Hpop)
    as (highValue & -> & _); [|done].
  intros Hempty. apply Hnot. intros x Hx.
  destruct (decide (x = 0%Qc)) as [->|Hx0]; [apply elem_of_union_l; by apply elem_of_singleton|].
  assert (Hin : x ∈ np.unique (np.U8 px) ∖ {[ 0%Qc ]}).
  { apply elem_of_difference. split; [done|]. by rewrite elem_of_singleton. }
  rewrite Hempty in Hin. by apply not_elem_of_empty in Hin.
Qed.

(** A floating-point image that needs the correction and has at most two
    distinct values always comes back rescaled by one of its non-zero values,
    whatever those values are. *)
Lemma assertBinaryImage_float_few_values pop (px : list Qc) imageName :
  pop_spec pop →
  ¬ np.unique (np.F64 px) ⊆ {[ 0%Qc; Qc_of_Z 255 ]} →
  (size (np.unique (np.F64 px)) ≤ 2)%nat →
  ∃ highValue, highValue ∈ np.unique (np.F64 px) ∧ highValue ≠ 0%Qc ∧
    assertBinaryImage pop (np.F64 px) imageName =
      Ok (np.F64 ((λ x, x / highValue * Qc_of_Z 255)%Qc <$> px)).
Proof.
  intros Hpop Hnot Hsize. unfold assertBinaryImage.
  rewrite decide_False, decide_True by done.
  destruct (set_pop_nonempty pop (np.unique (np.F64 px) ∖ {[ 0%Qc ]}) Hpop)
    as (highValue & -> & Hin).
  { intros Hempty. apply Hnot. intros x Hx.
    destruct (decide (x = 0%Qc)) as [->|Hx0];
      [apply elem_of_union_l; by apply elem_of_singleton|].
    assert (Hd : x ∈ np.unique (np.F64 px) ∖ {[ 0%Qc ]}).
    { apply elem_of_difference. split; [done|]. by rewrite elem_of_singleton. }
    rewrite Hempty in Hd. by apply not_elem_of_empty in Hd. }
  apply elem_of_difference in Hin as [Hin Hne]. rewrite elem_of_singleton in Hne.
  exists highValue. split; [done|]. split; [done|].
  cbn [mbind result_bind np.itruediv].
  rewrite decide_False.
  - cbn [np.imul]. by rewrite <- list_fmap_compose.
  - intros Hsub%subset_size.
    rewrite binary_values_size, unique_rescaled in Hsub.
    pose proof (size_set_map_le (λ v, v / highValue * Qc_of_Z 255)%Qc
                  (np.unique (np.F64 px))).
    lia.
Qed.

(** C4, at the input that fails: a [uint8] image -- the kind
    [loadSegmentationImage] produces -- whose distinct values are 0 and one
    other value [v] different from 255 is not rescaled: the in-place true
    division raises [TypeError].  (The image with values among 0 and 255 is
    returned unchanged, [assertBinaryImage_binary], and a floating-point image
    is rescaled, [assertBinaryImage_float_rescale].) *)
Theorem assertBinaryImage_uint8_rescale pop (px : list Z) (v : Z) imageName :
  pop_spec pop →
  np.unique (np.U8 px) = {[ 0%Qc; Qc_of_Z v ]} → v ≠ 0 → v ≠ 255 →
  assertBinaryImage pop (np.U8 px) imageName = Raise (Library TypeError).
Proof.
  intros Hpop Hvalues Hv0 Hv255.
  apply assertBinaryImage_uint8_needs_rescale; [done|..]; rewrite Hvalues.
  - intros Hsub.
    assert (Hin : Qc_of_Z v ∈ ({[ 0%Qc; Qc_of_Z 255 ]} : gset Qc)).
    { apply Hsub, elem_of_union_r. by apply elem_of_singleton. }
    apply elem_of_union in Hin. rewrite !elem_of_singleton in Hin.
    destruct Hin as [Hin|Hin].
    + rewrite Qc_zero_of_Z in Hin. by apply Z2Qc_inj in Hin.
    + by apply Z2Qc_inj in Hin.
  - rewrite size_union_alt, size_singleton.
    assert (size ({[ Qc_of_Z v ]} ∖ {[ 0%Qc ]} : gset Qc) ≤ 1)%nat.
    { rewrite <- (size_singleton (C:=gset Qc) (Qc_of_Z v)).
      apply subseteq_size, subseteq_difference_l. reflexivity. }
    lia.
Qed.

Lemma unique_0_128 :
  np.unique (np.U8 [0; 128; 128; 0]) = {[ 0%Qc; Qc_of_Z 128 ]}.
Proof.
  cbn [np.unique fmap list_fmap]. rewrite !list_to_set_cons, list_to_set_nil.
  rewrite <- Qc_zero_of_Z. apply set_eq. intros x.
  rewrite !elem_of_union, !elem_of_singleton, elem_of_empty. tauto.
Qed.

Lemma assertBinaryImage_uint8_rescale_witness :
  assertBinaryImage pop_first (np.U8 [0; 128; 128; 0]) "mask.png"
  = Raise (Library TypeError).
Proof.
  apply (assertBinaryImage_uint8_rescale pop_first [0; 128; 128; 0] 128 "mask.png").
  - exact pop_first_spec.
  - exact unique_0_128.
  - discriminate.
  - discriminate.
Defined.

Lemma unique_100_200 (a b : Qc) :
  np.unique (np.F64 [a; b]) = {[ a; b ]}.
Proof.
  cbn [np.unique]. rewrite !list_to_set_cons, list_to_set_nil.
  by rewrite (right_id_L ∅ (∪)).
Qed.

(** C5, at the input that fails: an image whose two distinct values are 100
    and 200 does not raise [ScoreException].  As a floating-point array it is
    returned, rescaled by one of the two values and still not binary; as a
    [uint8] array the division raises [TypeError].  (An image with more than
    two distinct values does raise [ScoreException] with a message that names
    it, [assertBinaryImage_many_values].) *)
Theorem assertBinaryImage_100_200 pop imageName :
  pop_spec pop →
  (assertBinaryImage pop (np.F64 [Qc_of_Z 100; Qc_of_Z 200]) imageName
     = Ok (np.F64 [Qc_of_Z 255; Qc_of_Z 510])
   ∨ assertBinaryImage pop (np.F64 [Qc_of_Z 100; Qc_of_Z 200]) imageName
     = Ok (np.F64 [Q2Qc (255 # 2); Qc_of_Z 255]))
  ∧ assertBinaryImage pop (np.U8 [100; 200]) imageName = Raise (Library TypeError).
Proof.
  intros Hpop.
  assert (Hnot : ∀ s : gset Qc, Qc_of_Z 100 ∈ s → ¬ s ⊆ {[ 0%Qc; Qc_of_Z 255 ]}).
  { intros s Hin Hsub. apply Hsub in Hin.
    apply elem_of_union in Hin. rewrite !elem_of_singleton in Hin.
    destruct Hin as [Hin|Hin].
    - rewrite Qc_zero_of_Z in Hin. by apply Z2Qc_inj in Hin.
    - by apply Z2Qc_inj in Hin. }
  split.
  - destruct (assertBinaryImage_float_few_values pop
                [Qc_of_Z 100; Qc_of_Z 200] imageName Hpop)
      as (h & Hh & _ & ->).
    + apply Hnot. rewrite unique_100_200.
      apply elem_of_union_l. by apply elem_of_singleton.
    + etrans; [apply size_list_to_set_le|done].
    + rewrite unique_100_200 in Hh. apply elem_of_union in Hh.
      rewrite !elem_of_singleton in Hh. destruct Hh as [->| ->]; [left|right];
        do 2 f_equal; cbn [fmap list_fmap]; repeat f_equal;
        apply Qc_is_canon; reflexivity.
  - apply assertBinaryImage_uint8_needs_rescale; [done|..].
    + apply Hnot. cbn [np.unique fmap list_fmap]. rewrite list_to_set_cons.
      apply elem_of_union_l. by apply elem_of_singleton.
    + etrans; [apply size_list_to_set_le|done].
Qed.

Lemma assertBinaryImage_100_200_witness :
  (assertBinaryImage pop_first (np.F64 [Qc_of_Z 100; Qc_of_Z 200]) "mask.png"
     = Ok (np.F64 [Qc_of_Z 255; Qc_of_Z 510])
   ∨ assertBinaryImage pop_first (np.F64 [Qc_of_Z 100; Qc_of_Z 200]) "mask.png"
     = Ok (np.F64 [Q2Qc (255 # 2); Qc_of_Z 255]))
  ∧ assertBinaryImage pop_first (np.U8 [100; 200]) "mask.png"
    = Raise (Library TypeError).
Proof. exact (assertBinaryImage_100_200 pop_first "mask.png" pop_first_spec). Defined.

(** * Properties of the tabular validation *)

Lemma column_Some (header : string) (raw : task3.RawTable) cells :
  task3.column header raw = Some cells → (header, cells) ∈ raw.
Proof.
  induction raw as [|[h c] raw IH]; [done|]. simpl.
  case_decide as Hh.
  - intros [= ->]. subst. left.
  - intros H. right. by apply IH.
Qed.

Lemma column_None (header : string) (raw : task3.RawTable) :
  task3.column header raw = None → header ∉ task3.headers raw.
Proof.
  induction raw as [|[h c] raw IH]; simpl.
  - intros _. apply not_elem_of_nil.
  - case_decide as Hh; [done|]. intros H. apply not_elem_of_cons. split.
    + by intros ->.
    + by apply IH.
Qed.

Lemma column_of_member (header : string) (raw : task3.RawTable) cells :
  NoDup (task3.headers raw) → (header, cells) ∈ raw →
  task3.column header raw = Some cells.
Proof.
  induction raw as [|[h c] raw IH]; intros Hnd Hin.
  - by apply elem_of_nil in Hin.
  - cbn [task3.headers fmap list_fmap fst] in Hnd.
    apply NoDup_cons in Hnd as [Hh Hnd]. simpl.
    apply elem_of_cons in Hin as [[= -> ->]|Hin].
    + by rewrite decide_True.
    + rewrite decide_False; [by apply IH|].
      intros ->. apply Hh.
      change header with ((header, cells).1). by apply list_elem_of_fmap_2.
Qed.

(** With distinct headers, the cells under a header do not depend on where
    the column stands. *)
Lemma column_permutation (header : string) (raw raw' : task3.RawTable) :
  NoDup (task3.headers raw) → raw ≡ₚ raw' →
  task3.column header raw' = task3.column header raw.
Proof.
  intros Hnd Hperm.
  assert (Hnd' : NoDup (task3.headers raw')).
  { unfold task3.headers. by rewrite <- Hperm. }
  destruct (task3.column header raw) as [cells|] eqn:Hc.
  - apply column_of_member; [done|]. rewrite <- Hperm. by apply column_Some.
  - destruct (task3.column header raw') as [cells'|] eqn:Hc'; [|done].
    apply column_Some in Hc'. apply column_None in Hc. exfalso. apply Hc.
    unfold task3.headers. rewrite Hperm.
    change header with ((header, cells').1). by apply list_elem_of_fmap_2.
Qed.

Lemma checkValues_Ok parse_float ids cols table :
  task3.checkValues parse_float ids cols = Ok table →
  task3.index table = ids ∧ (task3.columns table).*1 = cols.*1.
Proof.
  unfold task3.checkValues. repeat case_decide; try done.
  intros [= <-]. split; [done|]. cbn [task3.columns].
  rewrite <- list_fmap_compose. done.
Qed.

(** C8: for a valid submission table -- its headers are distinct and it
    parses -- moving the columns about, the identifier column included, yields
    the very same parsed table, and the columns of that table stand in the
    order of [CATEGORIES]. *)
Theorem parseCsv_column_order parse_float (raw raw' : task3.RawTable) table :
  NoDup (task3.headers raw) → raw ≡ₚ raw' →
  task3.parseCsv parse_float raw = Ok table →
  task3.parseCsv parse_float raw' = Ok table
  ∧ (task3.columns table).*1 = task3.CATEGORIES.
Proof.
  intros Hnd Hperm. unfold task3.parseCsv.
  rewrite (column_permutation "image" raw raw' Hnd Hperm).
  destruct (task3.column "image" raw) as [ids|]; [|done].
  assert (Hgiven : filter (λ h, h ≠ "image") (task3.headers raw')
                   ≡ₚ filter (λ h, h ≠ "image") (task3.headers raw)).
  { unfold task3.headers. by rewrite Hperm. }
  rewrite (list_filter_iff
             (λ c, c ∉ filter (λ h, h ≠ "image") (task3.headers raw'))
             (λ c, c ∉ filter (λ h, h ≠ "image") (task3.headers raw)))
    by (intros c; by rewrite Hgiven).
  case_decide as Hmissing; [done|].
  assert (Hextra : filter (λ h, h ∉ task3.CATEGORIES)
                     (filter (λ h, h ≠ "image") (task3.headers raw'))
                   ≡ₚ filter (λ h, h ∉ task3.CATEGORIES)
                        (filter (λ h, h ≠ "image") (task3.headers raw))).
  { by rewrite Hgiven. }
  case_decide as Hextra0; [done|].
  rewrite decide_False.
  2:{ intros Hne. apply Hne.
      rewrite Hextra0 in Hextra. by apply Permutation_nil_r in Hextra. }
  rewrite (list_fmap_ext
             (λ c, (c, default [] (task3.column c raw')))
             (λ c, (c, default [] (task3.column c raw))) task3.CATEGORIES)
    by (intros i c _; by rewrite (column_permutation c raw raw' Hnd Hperm)).
  intros Hok. split; [done|].
  apply checkValues_Ok in Hok as [_ ->].
  rewrite <- list_fmap_compose. apply list_fmap_id.
Qed.

Lemma parseCsv_column_order_witness :
  task3.parseCsv parse_numeral canonical_table = Ok expected_table
  ∧ (task3.columns expected_table).*1 = task3.CATEGORIES.
Proof.
  apply (parseCsv_column_order parse_numeral reordered_table canonical_table
           expected_table).
  - apply (bool_decide_unpack _). vm_compute. exact I.
  - unfold reordered_table, canonical_table. solve_Permutation.
  - vm_compute. reflexivity.
Defined.





Lemma ScoreException_classes msg :
  isinstance (ScoreException msg) ScoreException_scoreCommon = true
  ∧ isinstance (ScoreException msg) Exception = true
  ∧ isinstance (ScoreException msg) ScoreException_types = false
  ∧ isinstance (types.ScoreException msg) ScoreException_scoreCommon = false.
Proof. by repeat split. Qed.

(** * Properties of the specificity at a fixed sensitivity *)

Lemma chars_app (s1 s2 : string) : chars (s1 +:+ s2) = chars s1 ++ chars s2.
Proof. induction s1 as [|c s1 IH]; [done|]. simpl. by rewrite IH. Qed.

Lemma replace_removes (old new : ascii) (s : string) :
  old ≠ new → old ∉ chars (replace old new s).
Proof.
  intros Hne. induction s as [|c s IH]; simpl.
  - apply not_elem_of_nil.
  - apply not_elem_of_cons. split; [|done]. case_decide; congruence.
Qed.

(** What the loop finds, counted from the position it starts at. *)
Lemma first_reaching_Some (start : nat) (rates : list Qc) (threshold : Qc) (position : nat) :
  first_reaching start rates threshold = Some position →
  ∃ i rate, position = (start + i)%nat ∧ rates !! i = Some rate
            ∧ (threshold ≤ rate)%Qc
            ∧ ∀ j earlier, (j < i)%nat → rates !! j = Some earlier →
                           (earlier < threshold)%Qc.
Proof.
  revert start. induction rates as [|rate rates IH]; intros start; [done|].
  simpl. case_decide as Hle.
  - intros [= <-]. exists 0%nat, rate. repeat split; [lia|done|]. intros; lia.
  - intros (i & rate' & -> & Hi & Hrate & Hbefore)%IH.
    exists (S i), rate'. repeat split; [lia|done|done|].
    intros [|j] earlier Hj; simpl.
    + intros [= <-]. by apply Qclt_nge.
    + apply Hbefore. lia.
Qed.

Lemma first_reaching_None (start : nat) (rates : list Qc) (threshold : Qc) :
  first_reaching start rates threshold = None →
  ∀ rate, rate ∈ rates → (rate < threshold)%Qc.
Proof.
  revert start. induction rates as [|rate rates IH]; intros start.
  - intros _ r Hr. by apply elem_of_nil in Hr.
  - simpl. case_decide as Hle; [done|]. intros Hnone r Hr.
    apply elem_of_cons in Hr as [->|Hr]; [by apply Qclt_nge|by eapply IH].
Qed.

(** C6: [computeSPECMetrics] scans the points of the ROC curve in order and
    reports 1 minus the false-positive rate of the first point whose
    true-positive rate is at least the threshold, or 0.0 when no point reaches
    it; the name of the metric is "spec_at_sens_" followed by the ['%g'] text of
    100 times the threshold with every period replaced by an underscore, so it
    holds no period, and it reads "spec_at_sens_87_2" when that text is
    "87.2". *)
Theorem computeSPECMetrics_first_point
    (roc_curve : list Z → list Qc → result (list Qc * list Qc * list Qc))
    (format_g : Qc → string)
    (truthValues : list Z) (testValues : list Qc) (sensitivityThreshold : Qc)
    (falsePositiveRates truePositiveRates thresholds : list Qc) :
  roc_curve truthValues testValues
    = Ok (falsePositiveRates, truePositiveRates, thresholds) →
  length falsePositiveRates = length truePositiveRates →
  let metricName :=
    "spec_at_sens_" +:+
    replace "."%char "_"%char (format_g (sensitivityThreshold * Qc_of_Z 100)%Qc) in
  ∃ trueNegativeRate,
    computeSPECMetrics roc_curve format_g truthValues testValues sensitivityThreshold
      = Ok [ {| name := metricName; value := Some trueNegativeRate |} ]
    ∧ ((∃ i truePositiveRate falsePositiveRate,
          truePositiveRates !! i = Some truePositiveRate
          ∧ falsePositiveRates !! i = Some falsePositiveRate
          ∧ (sensitivityThreshold ≤ truePositiveRate)%Qc
          ∧ (∀ j earlier, (j < i)%nat → truePositiveRates !! j = Some earlier →
                          (earlier < sensitivityThreshold)%Qc)
          ∧ trueNegativeRate = (1 - falsePositiveRate)%Qc)
       ∨ ((∀ rate, rate ∈ truePositiveRates → (rate < sensitivityThreshold)%Qc)
          ∧ trueNegativeRate = 0%Qc))
    ∧ ("."%char ∉ chars metricName)
    ∧ (format_g (sensitivityThreshold * Qc_of_Z 100)%Qc = "87.2" →
       metricName = "spec_at_sens_87_2").
Proof.
  intros Hroc Hlen metricName.
  assert (Hname : ("."%char ∉ chars metricName)
                  ∧ (format_g (sensitivityThreshold * Qc_of_Z 100)%Qc = "87.2" →
                     metricName = "spec_at_sens_87_2")).
  { split.
    - unfold metricName. rewrite chars_app. apply not_elem_of_app. split.
      + compute_done.
      + by apply replace_removes.
    - unfold metricName. by intros ->. }
  unfold computeSPECMetrics. rewrite Hroc. cbn [mbind result_bind].
  destruct (first_reaching 0 truePositiveRates sensitivityThreshold)
    as [position|] eqn:Hscan.
  - apply first_reaching_Some in Hscan
      as (i & truePositiveRate & -> & Hi & Hreach & Hbefore).
    cbn [Nat.add]. unfold getitem.
    destruct (falsePositiveRates !! i) as [falsePositiveRate|] eqn:Hfpr.
    + cbn [mbind result_bind mret result_ret].
      exists (1 - falsePositiveRate)%Qc. split; [done|]. split; [|done].
      left. by exists i, truePositiveRate, falsePositiveRate.
    + apply lookup_ge_None in Hfpr. apply lookup_lt_Some in Hi. lia.
  - cbn [mbind result_bind mret result_ret].
    exists 0%Qc. split; [done|]. split; [|done].
    right. split; [|done]. by eapply first_reaching_None.
Qed.

Lemma computeSPECMetrics_first_point_witness :
  let sensitivityThreshold := Q2Qc (872 # 1000) in
  let falsePositiveRates := [0%Qc; 0%Qc; 1%Qc] in
  let truePositiveRates := [0%Qc; 1%Qc; 1%Qc] in
  let metricName :=
    "spec_at_sens_" +:+
    replace "."%char "_"%char (percent.g (sensitivityThreshold * Qc_of_Z 100)%Qc) in
  ∃ trueNegativeRate,
    computeSPECMetrics roc_curve_separated percent.g [1; 0]
        [Q2Qc (9 # 10); Q2Qc (1 # 10)] sensitivityThreshold
      = Ok [ {| name := metricName; value := Some trueNegativeRate |} ]
    ∧ ((∃ i truePositiveRate falsePositiveRate,
          truePositiveRates !! i = Some truePositiveRate
          ∧ falsePositiveRates !! i = Some falsePositiveRate
          ∧ (sensitivityThreshold ≤ truePositiveRate)%Qc
          ∧ (∀ j earlier, (j < i)%nat → truePositiveRates !! j = Some earlier →
                          (earlier < sensitivityThreshold)%Qc)
          ∧ trueNegativeRate = (1 - falsePositiveRate)%Qc)
       ∨ ((∀ rate, rate ∈ truePositiveRates → (rate < sensitivityThreshold)%Qc)
          ∧ trueNegativeRate = 0%Qc))
    ∧ ("."%char ∉ chars metricName)
    ∧ (percent.g (sensitivityThreshold * Qc_of_Z 100)%Qc = "87.2" →
       metricName = "spec_at_sens_87_2").
Proof.
  apply (computeSPECMetrics_first_point roc_curve_separated percent.g [1; 0]
           [Q2Qc (9 # 10); Q2Qc (1 # 10)] (Q2Qc (872 # 1000))
           [0%Qc; 0%Qc; 1%Qc] [0%Qc; 1%Qc; 1%Qc]
           [Q2Qc (19 # 10); Q2Qc (9 # 10); Q2Qc (1 # 10)]).
  - reflexivity.
  - reflexivity.
Defined.

(** The model run on that curve at the threshold 0.872: the second point is
    the first to reach it, and the name embeds "87_2". *)
Example computeSPECMetrics_87_2 :
  (λ metrics : list Metric,
     (λ m : Metric, (name m, this <$> value m)) <$> metrics) <$>
    computeSPECMetrics roc_curve_separated percent.g [1; 0]
      [Q2Qc (9 # 10); Q2Qc (1 # 10)] (Q2Qc (872 # 1000))
  = Ok [ ("spec_at_sens_87_2", Some 1%Q) ].
Proof. vm_compute. reflexivity. Qed.

(** * Properties of [Score] *)

Lemma append_assoc (s1 s2 s3 : string) : (s1 +:+ s2) +:+ s3 = s1 +:+ (s2 +:+ s3).
Proof.
  induction s1 as [|c s1 IH]; [done|].
  change (String c ((s1 +:+ s2) +:+ s3) = String c (s1 +:+ (s2 +:+ s3))).
  by rewrite IH.
Qed.

Lemma line_feeds_app l1 l2 : line_feeds (l1 ++ l2) = (line_feeds l1 + line_feeds l2)%nat.
Proof. unfold line_feeds. by rewrite filter_app, length_app. Qed.

Lemma line_feeds_absent l : ascii_of_nat 10 ∉ l → line_feeds l = 0%nat.
Proof.
  unfold line_feeds. induction l as [|c l IH]; [done|].
  intros [Hc Hl]%not_elem_of_cons. rewrite filter_cons, decide_False by done.
  by apply IH.
Qed.

(** C9: [to_string] is the text "Overall: <o>", a line feed, "Validation: <v>"
    -- one line feed, none at the end, when the text of a float is non-empty
    and holds none -- and [to_dict] maps "overall" to [o], "validation" to [v]
    and holds no other key. *)
Theorem Score_to_string_to_dict (float_str : Qc → string) (self : types.Score) :
  types.to_string float_str self
    = "Overall: " +:+ float_str (types.overall self) +:+ LF
      +:+ "Validation: " +:+ float_str (types.validation self)
  ∧ ((∀ x, float_str x ≠ "" ∧ ascii_of_nat 10 ∉ chars (float_str x)) →
     line_feeds (chars (types.to_string float_str self)) = 1%nat
     ∧ last (chars (types.to_string float_str self)) ≠ Some (ascii_of_nat 10))
  ∧ types.to_dict self !! "overall" = Some (types.overall self)
  ∧ types.to_dict self !! "validation" = Some (types.validation self)
  ∧ dom (types.to_dict self) = {[ "overall"; "validation" ]}.
Proof.
  assert (Htext : types.to_string float_str self
    = "Overall: " +:+ float_str (types.overall self) +:+ LF
      +:+ "Validation: " +:+ float_str (types.validation self)).
  { unfold types.to_string. by rewrite !append_assoc. }
  split; [exact Htext|]. split.
  - intros Hfloat. rewrite Htext, !chars_app.
    destruct (Hfloat (types.overall self)) as [_ Ho].
    destruct (Hfloat (types.validation self)) as [Hv Hnl].
    split.
    + rewrite !line_feeds_app, (line_feeds_absent _ Ho), (line_feeds_absent _ Hnl).
      reflexivity.
    + rewrite !app_assoc.
      destruct (chars (float_str (types.validation self))) as [|c l] eqn:Hc using rev_ind.
      * destruct (float_str (types.validation self)); [done|discriminate].
      * rewrite app_assoc, last_snoc. intros [= ->]. apply Hnl.
        apply elem_of_app. right. left.
  - unfold types.to_dict. split; [|split].
    + by rewrite lookup_insert_eq.
    + rewrite lookup_insert_ne by done. by rewrite lookup_singleton_eq.
    + by rewrite dom_insert_L, dom_singleton_L.
Qed.

(** * One exception class for validation failures *)



(** The image loader hands [assertBinaryImage] a [uint8] array: on a greyscale
    mask with the values 0 and 128 the two calls in sequence end in the
    [TypeError] of the in-place division. *)
Example load_then_assert_0_128 :
  loadSegmentationImage open_grey
      {| path_str := "masks/ISIC_0000123.png"; path_name := "ISIC_0000123.png" |}
    ≫= (λ image, assertBinaryImage pop_first image "ISIC_0000123.png")
  = Raise (Library TypeError).
Proof. vm_compute. reflexivity. Qed.

(** * Further properties of the binarization *)

(** X1: an image whose distinct values are among 0 and 255 is returned
    unchanged, without raising, whatever its dtype. *)
Theorem assertBinaryImage_passes_binary pop image imageName :
  np.unique image ⊆ {[ 0%Qc; Qc_of_Z 255 ]} →
  assertBinaryImage pop image imageName = Ok image.
Proof. intros Hsub. by apply assertBinaryImage_binary. Qed.

Lemma assertBinaryImage_passes_binary_witness :
  assertBinaryImage pop_first (np.U8 [0; 255; 255; 0]) "mask.png"
  = Ok (np.U8 [0; 255; 255; 0]).
Proof.
  apply (assertBinaryImage_passes_binary pop_first (np.U8 [0; 255; 255; 0]) "mask.png").
  apply (bool_decide_unpack _). vm_compute. exact I.
Defined.

(** X2: an image with more than two distinct values raises the
    [ScoreException] whose message names the image. *)
Theorem assertBinaryImage_rejects_many_values pop image imageName :
  (2 < size (np.unique image))%nat →
  assertBinaryImage pop image imageName =
    Raise (ScoreException
             ("Image " +:+ imageName +:+ " contains values other than 0 and 255.")).
Proof. intros Hsize. by apply assertBinaryImage_many_values. Qed.

Lemma assertBinaryImage_rejects_many_values_witness :
  assertBinaryImage pop_first (np.U8 [0; 100; 200]) "mask.png" =
    Raise (ScoreException
             ("Image " +:+ "mask.png" +:+ " contains values other than 0 and 255.")).
Proof.
  apply (assertBinaryImage_rejects_many_values pop_first (np.U8 [0; 100; 200]) "mask.png").
  apply (bool_decide_unpack _). vm_compute. exact I.
Defined.



(** X4: with at most two distinct values [assertBinaryImage] never raises a
    [ScoreException]: it returns an image, or an exception of the interpreter
    or of NumPy leaves it.  The [raise] after the rescaling is unreachable,
    because a proper superset of {0, 255} has three values. *)
Theorem assertBinaryImage_two_values_no_ScoreException pop image imageName :
  (size (np.unique image) ≤ 2)%nat →
  (∃ image', assertBinaryImage pop image imageName = Ok image')
  ∨ (∃ c, assertBinaryImage pop image imageName = Raise (Library c)).
Proof. intros Hsize. by apply assertBinaryImage_few_values. Qed.

Lemma assertBinaryImage_two_values_no_ScoreException_witness :
  (∃ image', assertBinaryImage pop_first (np.U8 [7; 9; 7]) "mask.png" = Ok image')
  ∨ (∃ c, assertBinaryImage pop_first (np.U8 [7; 9; 7]) "mask.png"
          = Raise (Library c)).
Proof.
  apply (assertBinaryImage_two_values_no_ScoreException pop_first
           (np.U8 [7; 9; 7]) "mask.png").
  apply (bool_decide_unpack _). vm_compute. exact I.
Defined.

(** * Further properties of the confusion-matrix metrics *)

Lemma float_pos (n : Z) : 0 < n → (0 < float n)%Qc.
Proof.
  intros Hn. unfold float. rewrite <- Z2Qc_inj_0.
  exact (proj1 (Z2Qc_inj_lt 0 n) Hn).
Qed.

(** Quotients of integers compare as their cross products. *)
Lemma float_div_le (a b c d : Z) :
  0 < b → 0 < d → a * d ≤ c * b →
  (float a / float b ≤ float c / float d)%Qc.
Proof.
  intros Hb Hd Hle.
  pose proof (float_pos b Hb) as HB. pose proof (float_pos d Hd) as HD.
  assert (HB0 : float b ≠ 0%Qc) by (rewrite float_eq_0; lia).
  assert (HD0 : float d ≠ 0%Qc) by (rewrite float_eq_0; lia).
  apply (Qcmult_le_mono_pos_r _ _ (float b * float d)%Qc);
    [by apply Qcmult_pos_pos|].
  replace (float a / float b * (float b * float d))%Qc
    with (float a * float d)%Qc by (field; done).
  replace (float c / float d * (float b * float d))%Qc
    with (float c * float b)%Qc by (field; done).
  unfold float. rewrite <- !Z2Qc_inj_mul.
  exact (proj1 (Z2Qc_inj_le _ _) Hle).
Qed.

Lemma float_div_self (n : Z) : n ≠ 0 → (float n / float n)%Qc = 1%Qc.
Proof. intros Hn. field. by rewrite float_eq_0. Qed.

Lemma float_div_zero (n : Z) : (float 0 / float n)%Qc = 0%Qc.
Proof. unfold float. rewrite Z2Qc_inj_0. unfold Qcdiv. ring. Qed.

(** A part over a positive whole lies between 0 and 1. *)
Lemma ratio_bounds (a b : Z) :
  0 ≤ a ≤ b → 0 < b → (0 ≤ float a / float b ≤ 1)%Qc.
Proof.
  intros [Ha Hab] Hb. split.
  - rewrite <- (float_div_zero 1). apply float_div_le; lia.
  - rewrite <- (float_div_self 1) by done. apply float_div_le; lia.
Qed.

(** X5: on equal-length non-empty boolean arrays every value that
    [computeCommonMetrics] reports -- accuracy, and sensitivity and
    specificity when they are defined -- lies between 0 and 1. *)
Theorem computeCommonMetrics_ranges (truth test : list bool) :
  length truth = length test → truth ≠ [] →
  ∃ metrics,
    computeCommonMetrics (np.of_bools truth) (np.of_bools test) = Ok metrics
    ∧ Forall (λ m, ∀ v, value m = Some v → (0 ≤ v ≤ 1)%Qc) metrics.
Proof.
  intros Hlen Hne. eexists. split; [by apply computeCommonMetrics_of_bools|].
  pose proof (positions_total truth test Hlen) as Htotal.
  pose proof (positions_nonneg true true truth test).
  pose proof (positions_nonneg false false truth test).
  pose proof (positions_nonneg false true truth test).
  pose proof (positions_nonneg true false truth test).
  assert (0 < Z.of_nat (length truth)) by (destruct truth; [done|cbn [length]; lia]).
  repeat apply Forall_cons_2; [..|apply Forall_nil_2]; cbn [value].
  - intros v [= <-]. apply ratio_bounds; lia.
  - case_bool_decide as Hin; [|done]. intros v [= <-].
    pose proof (positions_row_pos true truth test Hlen Hin).
    apply ratio_bounds; lia.
  - case_bool_decide as Hin; [|done]. intros v [= <-].
    pose proof (positions_row_pos false truth test Hlen Hin).
    apply ratio_bounds; lia.
Qed.

Lemma computeCommonMetrics_ranges_witness :
  ∃ metrics,
    computeCommonMetrics (np.of_bools [true; false; true; false])
                         (np.of_bools [true; true; false; false]) = Ok metrics
    ∧ Forall (λ m, ∀ v, value m = Some v → (0 ≤ v ≤ 1)%Qc) metrics.
Proof.
  apply (computeCommonMetrics_ranges [true; false; true; false]
           [true; true; false; false]).
  - reflexivity.
  - discriminate.
Defined.

Lemma positions_diagonal (t p : bool) (a : list bool) :
  t ≠ p → positions t p a a = 0.
Proof.
  intros Htp. induction a as [|b a IH]; [done|].
  rewrite positions_cons, IH. rewrite decide_False; [done|].
  intros [= -> ->]. done.
Qed.

(** X6: a prediction equal to a non-empty ground truth scores accuracy 1,
    sensitivity 1 when there is a positive sample ([None] when there is none)
    and specificity 1 when there is a negative sample ([None] when there is
    none). *)
Theorem computeCommonMetrics_perfect (truth : list bool) :
  truth ≠ [] →
  computeCommonMetrics (np.of_bools truth) (np.of_bools truth) =
    Ok [ {| name := "accuracy"; value := Some 1%Qc |};
         {| name := "sensitivity";
            value := if bool_decide (true ∈ truth) then Some 1%Qc else None |};
         {| name := "specificity";
            value := if bool_decide (false ∈ truth) then Some 1%Qc else None |} ].
Proof.
  intros Hne. rewrite computeCommonMetrics_of_bools by done.
  pose proof (positions_total truth truth eq_refl) as Htotal.
  rewrite !(positions_diagonal false true), !(positions_diagonal true false) in * by done.
  rewrite !Z.add_0_r in *. rewrite Htotal.
  assert (Z.of_nat (length truth) ≠ 0) by (destruct truth; [done|cbn [length]; lia]).
  rewrite float_div_self by done.
  do 3 f_equal; [|f_equal]; f_equal.
  - case_bool_decide as Hin; [|done].
    pose proof (positions_row_pos true truth truth eq_refl Hin) as Hpos.
    rewrite (positions_diagonal true false) in Hpos by done.
    rewrite float_div_self by lia. done.
  - case_bool_decide as Hin; [|done].
    pose proof (positions_row_pos false truth truth eq_refl Hin) as Hpos.
    rewrite (positions_diagonal false true) in Hpos by done.
    rewrite float_div_self by lia. done.
Qed.

Lemma computeCommonMetrics_perfect_witness :
  computeCommonMetrics (np.of_bools [true; true]) (np.of_bools [true; true]) =
    Ok [ {| name := "accuracy"; value := Some 1%Qc |};
         {| name := "sensitivity";
            value := if bool_decide (true ∈ [true; true]) then Some 1%Qc else None |};
         {| name := "specificity";
            value := if bool_decide (false ∈ [true; true]) then Some 1%Qc else None |} ].
Proof. apply (computeCommonMetrics_perfect [true; true]). discriminate. Defined.

Lemma positions_negb (t p : bool) (truth test : list bool) :
  positions t p (negb <$> truth) (negb <$> test)
  = positions (negb t) (negb p) truth test.
Proof.
  revert test. induction truth as [|a truth IH]; intros [|b test]; try done.
  cbn [fmap list_fmap]. rewrite !positions_cons, IH. f_equal.
  destruct a, b, t, p; reflexivity.
Qed.

Lemma elem_of_negb (b : bool) (a : list bool) : b ∈ negb <$> a ↔ negb b ∈ a.
Proof.
  rewrite list_elem_of_fmap. split.
  - intros (c & -> & Hc). by rewrite negb_involutive.
  - intros Hb. exists (negb b). by rewrite negb_involutive.
Qed.

(** X7: exchanging the roles of the two classes -- negating both the ground
    truth and the prediction -- keeps the accuracy and exchanges sensitivity
    and specificity. *)
Theorem computeCommonMetrics_complement (truth test : list bool) :
  length truth = length test → truth ≠ [] →
  ∃ accuracy sensitivity specificity,
    computeCommonMetrics (np.of_bools truth) (np.of_bools test) =
      Ok [ {| name := "accuracy"; value := accuracy |};
           {| name := "sensitivity"; value := sensitivity |};
           {| name := "specificity"; value := specificity |} ]
    ∧ computeCommonMetrics (np.of_bools (negb <$> truth))
                           (np.of_bools (negb <$> test)) =
      Ok [ {| name := "accuracy"; value := accuracy |};
           {| name := "sensitivity"; value := specificity |};
           {| name := "specificity"; value := sensitivity |} ].
Proof.
  intros Hlen Hne. eexists _, _, _.
  split; [by apply computeCommonMetrics_of_bools|].
  rewrite computeCommonMetrics_of_bools
    by (rewrite ?length_fmap; first [done|by destruct truth]).
  rewrite !positions_negb, length_fmap. cbn [negb].
  rewrite (bool_decide_ext _ _ (elem_of_negb true truth)).
  rewrite (bool_decide_ext _ _ (elem_of_negb false truth)). cbn [negb].
  rewrite (Z.add_comm (positions false false truth test)
                      (positions true true truth test)).
  reflexivity.
Qed.

Lemma computeCommonMetrics_complement_witness :
  ∃ accuracy sensitivity specificity,
    computeCommonMetrics (np.of_bools [true; true; false])
                         (np.of_bools [true; false; false]) =
      Ok [ {| name := "accuracy"; value := accuracy |};
           {| name := "sensitivity"; value := sensitivity |};
           {| name := "specificity"; value := specificity |} ]
    ∧ computeCommonMetrics (np.of_bools (negb <$> [true; true; false]))
                           (np.of_bools (negb <$> [true; false; false])) =
      Ok [ {| name := "accuracy"; value := accuracy |};
           {| name := "sensitivity"; value := specificity |};
           {| name := "specificity"; value := sensitivity |} ].
Proof.
  apply (computeCommonMetrics_complement [true; true; false] [true; false; false]).
  - reflexivity.
  - discriminate.
Defined.

(** * Shapes and symmetry of [computeTFPN] *)

Lemma elementwise_comm {A C} (f : A → A → C) (x y : list A) :
  (∀ a b, f a b = f b a) → np.elementwise f x y = np.elementwise f y x.
Proof.
  intros Hf. unfold np.elementwise.
  destruct (decide (length x = length y)) as [Hlen|Hlen].
  - rewrite decide_True by done. f_equal.
    rewrite <- (zip_with_flip f). apply zip_with_ext; [|done..].
    intros a b. apply Hf.
  - rewrite decide_False by done.
    assert (Hext : ∀ (a : A) (l : list A), f a <$> l = (λ b, f b a) <$> l).
    { intros a l. induction l as [|b l IH]; [done|].
      cbn [fmap list_fmap] in *. by rewrite IH, (Hf a b). }
    destruct x as [|a [|a' x]], y as [|b [|b' y]]; try done;
      by rewrite ?Hext.
Qed.

Lemma elementwise_raise {A B C} (f : A → B → C) x y e :
  np.elementwise f x y = Raise e → e = Library ValueError.
Proof.
  unfold np.elementwise. case_decide; [done|].
  destruct x as [|a [|a' x]], y as [|b [|b' y]]; try done; by intros [= <-].
Qed.

Lemma logical_and_comm (x y : list Z) : np.logical_and x y = np.logical_and y x.
Proof. apply elementwise_comm. intros a b. apply andb_comm. Qed.

Lemma computeTFPN_swap (truth test : list Z) :
  computeTFPN test truth
  = (λ '(tp, tn, fp, fn), (tp, tn, fn, fp)) <$> computeTFPN truth test.
Proof.
  unfold computeTFPN.
  rewrite (logical_and_comm test truth),
    (logical_and_comm (np.rsub 1 test) (np.rsub 1 truth)),
    (logical_and_comm (np.rsub 1 test) truth),
    (logical_and_comm test (np.rsub 1 truth)).
  destruct (np.logical_and truth test) as [tp|e]; [|done].
  destruct (np.logical_and (np.rsub 1 truth) (np.rsub 1 test)) as [tn|e]; [|done].
  destruct (np.logical_and (np.rsub 1 truth) test) as [fp|e1] eqn:Hfp,
           (np.logical_and truth (np.rsub 1 test)) as [fn|e2] eqn:Hfn;
    try done.
  apply elementwise_raise in Hfp, Hfn. by subst.
Qed.

(** X8: [computeTFPN] treats its two arguments alike: exchanging ground truth
    and prediction keeps the true positives and the true negatives and
    exchanges false positives and false negatives, for arrays of any values
    and lengths (a shape error stays a shape error). *)
Theorem computeTFPN_exchange (truth test : list Z) :
  computeTFPN test truth
  = (λ '(truePositive, trueNegative, falsePositive, falseNegative),
       (truePositive, trueNegative, falseNegative, falsePositive))
    <$> computeTFPN truth test.
Proof. apply computeTFPN_swap. Qed.

Lemma elementwise_mismatch {A B C} (f : A → B → C) x y :
  length x ≠ length y → length x ≠ 1%nat → length y ≠ 1%nat →
  np.elementwise f x y = Raise (Library ValueError).
Proof.
  intros Hlen Hx Hy. unfold np.elementwise.
  rewrite (decide_False (P := length x = length y)) by done.
  destruct x as [|a [|a' x]], y as [|b [|b' y]]; done.
Qed.

(** X9: [computeTFPN] does not check lengths itself: two arrays of different
    lengths, neither of length one, end in NumPy's [ValueError], which is not
    a [ScoreException]. *)
Theorem computeTFPN_shape_mismatch (truth test : list Z) :
  length truth ≠ length test → length truth ≠ 1%nat → length test ≠ 1%nat →
  computeTFPN truth test = Raise (Library ValueError)
  ∧ isinstance (Library ValueError) ScoreException_scoreCommon = false.
Proof.
  intros Hlen Htruth Htest. split; [|done].
  unfold computeTFPN, np.logical_and.
  by rewrite (elementwise_mismatch _ truth test).
Qed.

Lemma computeTFPN_shape_mismatch_witness :
  computeTFPN [1; 0; 1] [1; 0] = Raise (Library ValueError)
  ∧ isinstance (Library ValueError) ScoreException_scoreCommon = false.
Proof.
  apply (computeTFPN_shape_mismatch [1; 0; 1] [1; 0]); discriminate.
Defined.

Lemma elementwise_stretch {A B C} (f : A → B → C) (a : A) (y : list B) :
  np.elementwise f [a] y = np.elementwise f (replicate (length y) a) y.
Proof.
  rewrite (elementwise_same_length f (replicate (length y) a) y)
    by by rewrite length_replicate.
  rewrite zip_with_replicate_l by done.
  unfold np.elementwise. case_decide as Hlen; [|done].
  destruct y as [|b [|b' y]]; done.
Qed.

(** X10: a one-element ground truth is not rejected either: NumPy stretches
    it, and [computeTFPN] counts as if that one value stood at every position
    of the prediction. *)
Theorem computeTFPN_stretches_single (a : Z) (test : list Z) :
  computeTFPN [a] test = computeTFPN (replicate (length test) a) test.
Proof.
  unfold computeTFPN, np.logical_and, np.rsub.
  rewrite fmap_replicate. cbn [fmap list_fmap].
  rewrite !(elementwise_stretch _ a), !(elementwise_stretch _ (1 - a)).
  by rewrite !length_fmap.
Qed.

(** * Further properties of the similarity metrics *)

Lemma computeSimilarityMetrics_of_bools (truth test : list bool) :
  length truth = length test →
  computeSimilarityMetrics (np.of_bools truth) (np.of_bools test) =
    Ok [ {| name := "jaccard";
            value :=
              if decide (positions true true truth test
                         + positions true false truth test
                         + positions false true truth test = 0) then None
              else Some (float (positions true true truth test)
                         / float (positions true true truth test
                                  + positions true false truth test
                                  + positions false true truth test))%Qc |};
         {| name := "dice";
            value :=
              if decide (positives truth + positives test = 0) then None
              else Some (float (2 * positions true true truth test)
                         / float (positives truth + positives test))%Qc |} ].
Proof.
  intros Hlen. unfold computeSimilarityMetrics.
  rewrite (computeTFPN_of_bools _ _ Hlen). cbn [mbind result_bind].
  unfold jaccard_value, dice_value. rewrite !sum_of_bools.
  by rewrite !guarded_truediv_neqb.
Qed.

(** X11: on equal-length boolean arrays the two similarity metrics are
    undefined together, and where they are defined the Jaccard index [J]
    never exceeds the Dice coefficient [D]: 0 <= J <= D <= 1. *)
Theorem computeSimilarityMetrics_jaccard_le_dice (truth test : list bool) :
  length truth = length test →
  ∃ jaccard dice,
    computeSimilarityMetrics (np.of_bools truth) (np.of_bools test) =
      Ok [ {| name := "jaccard"; value := jaccard |};
           {| name := "dice"; value := dice |} ]
    ∧ (jaccard = None ↔ dice = None)
    ∧ (∀ J D, jaccard = Some J → dice = Some D →
         (0 ≤ J)%Qc ∧ (J ≤ D)%Qc ∧ (D ≤ 1)%Qc).
Proof.
  intros Hlen. eexists _, _.
  split; [by apply computeSimilarityMetrics_of_bools|].
  pose proof (positives_truth _ _ Hlen) as Htruth.
  pose proof (positives_test _ _ Hlen) as Htest.
  pose proof (positions_nonneg true true truth test).
  pose proof (positions_nonneg true false truth test).
  pose proof (positions_nonneg false true truth test).
  set (TP := positions true true truth test) in *.
  set (FN := positions true false truth test) in *.
  set (FP := positions false true truth test) in *.
  rewrite Htruth, Htest.
  destruct (decide (TP + FN + FP = 0)) as [Hu|Hu].
  - rewrite decide_True by lia. done.
  - rewrite decide_False by lia. split; [done|].
    intros J D [= <-] [= <-].
    replace (TP + FN + (TP + FP)) with (TP + FN + FP + TP) by lia.
    split; [|split].
    + apply ratio_bounds; lia.
    + apply float_div_le; [lia..|]. nia.
    + apply ratio_bounds; lia.
Qed.

Lemma computeSimilarityMetrics_jaccard_le_dice_witness :
  ∃ jaccard dice,
    computeSimilarityMetrics (np.of_bools [true; true; false])
                             (np.of_bools [true; false; true]) =
      Ok [ {| name := "jaccard"; value := jaccard |};
           {| name := "dice"; value := dice |} ]
    ∧ (jaccard = None ↔ dice = None)
    ∧ (∀ J D, jaccard = Some J → dice = Some D →
         (0 ≤ J)%Qc ∧ (J ≤ D)%Qc ∧ (D ≤ 1)%Qc).
Proof.
  apply (computeSimilarityMetrics_jaccard_le_dice [true; true; false]
           [true; false; true]).
  reflexivity.
Defined.

(** X12: the similarity metrics do not tell ground truth from prediction:
    exchanging the two arrays gives the same records, for arrays of any
    values and lengths. *)
Theorem computeSimilarityMetrics_symmetric (truth test : list Z) :
  computeSimilarityMetrics test truth = computeSimilarityMetrics truth test.
Proof.
  unfold computeSimilarityMetrics. rewrite computeTFPN_swap.
  destruct (computeTFPN truth test) as [[[[tp tn] fp] fn]|e]; [|done].
  cbn [fmap result_fmap mbind result_bind].
  unfold jaccard_value, dice_value.
  replace (tp + fp + fn) with (tp + fn + fp) by lia.
  by rewrite (Z.add_comm (np.sum test) (np.sum truth)).
Qed.

(** X13: a prediction equal to the ground truth has Jaccard index 1 and Dice
    coefficient 1 when the mask has a positive pixel, and both are [None]
    when it has none (the empty mask included). *)
Theorem computeSimilarityMetrics_perfect (mask : list bool) :
  computeSimilarityMetrics (np.of_bools mask) (np.of_bools mask) =
    Ok [ {| name := "jaccard";
            value := if bool_decide (true ∈ mask) then Some 1%Qc else None |};
         {| name := "dice";
            value := if bool_decide (true ∈ mask) then Some 1%Qc else None |} ].
Proof.
  rewrite computeSimilarityMetrics_of_bools by done.
  pose proof (positives_truth mask mask eq_refl) as Hpos.
  rewrite !(positions_diagonal false true), !(positions_diagonal true false) in * by done.
  rewrite !Z.add_0_r in *. rewrite Hpos.
  replace (positions true true mask mask + positions true true mask mask)
    with (2 * positions true true mask mask) by lia.
  case_bool_decide as Hin.
  - pose proof (positions_row_pos true mask mask eq_refl Hin) as Hrow.
    rewrite (positions_diagonal true false) in Hrow by done.
    rewrite !decide_False by lia. by rewrite !float_div_self by lia.
  - assert (positives mask = 0) as Hzero.
    { apply positives_all_false. intros [] Hb; [done|done]. }
    rewrite !decide_True by lia. done.
Qed.

(** * The image loader and the binarization together *)

Lemma loadSegmentationImage_Ok Image_open imagePath image :
  loadSegmentationImage Image_open imagePath = Ok image →
  ∃ decoded pixels, Image_open (path_str imagePath) = inr decoded
    ∧ load decoded = Ok pixels
    ∧ ((mode decoded = "L" ∧ image = np.U8 pixels)
       ∨ (mode decoded = "1"
          ∧ image = np.U8 ((λ v, if v =? 0 then 0 else 255) <$> pixels))).
Proof.
  unfold loadSegmentationImage.
  destruct (Image_open (path_str imagePath)) as [err|decoded]; [done|].
  cbn [mbind result_bind]. intros Hresult.
  destruct (load decoded) as [pixels|e] eqn:Hload.
  - exists decoded, pixels. split; [done|]. split; [done|].
    destruct (decide (mode decoded = "1")) as [H1|H1].
    + unfold convert_L in Hresult. rewrite Hload in Hresult.
      cbn [mbind result_bind mret result_ret mode] in Hresult.
      rewrite (decide_False (P := "L" ≠ "L")) in Hresult by (by intros []).
      injection Hresult as <-. by right.
    + cbn [mbind result_bind] in Hresult. case_decide as HL; [done|].
      unfold np_array in Hresult. rewrite Hload in Hresult.
      injection Hresult as <-. left.
      split; [|done]. by destruct (decide (mode decoded = "L")).
  - exfalso. destruct (decide (mode decoded = "1")) as [H1|H1].
    + unfold convert_L in Hresult. by rewrite Hload in Hresult.
    + cbn [mbind result_bind] in Hresult. case_decide as HL; [done|].
      unfold np_array in Hresult. by rewrite Hload in Hresult.
Qed.

Lemma assertBinaryImage_uint8_Ok pop (px : list Z) imageName image' :
  assertBinaryImage pop (np.U8 px) imageName = Ok image' →
  image' = np.U8 px ∧ np.unique (np.U8 px) ⊆ {[ 0%Qc; Qc_of_Z 255 ]}.
Proof.
  unfold assertBinaryImage, set_pop. case_decide as Hsub.
  - by intros [= <-].
  - case_decide; [|done]. by destruct (pop _).
Qed.

(** X14: on a [uint8] array [assertBinaryImage] never corrects anything: when
    it returns, it returns its argument, and the values of that array are
    already among 0 and 255 -- whatever [set.pop] does. *)
Theorem assertBinaryImage_uint8_unchanged pop (px : list Z) imageName image' :
  assertBinaryImage pop (np.U8 px) imageName = Ok image' →
  image' = np.U8 px ∧ np.unique (np.U8 px) ⊆ {[ 0%Qc; Qc_of_Z 255 ]}.
Proof. apply assertBinaryImage_uint8_Ok. Qed.

Lemma assertBinaryImage_uint8_unchanged_witness :
  np.U8 [0; 255; 0] = np.U8 [0; 255; 0]
  ∧ np.unique (np.U8 [0; 255; 0]) ⊆ {[ 0%Qc; Qc_of_Z 255 ]}.
Proof.
  apply (assertBinaryImage_uint8_unchanged pop_first [0; 255; 0] "mask.png").
  vm_compute. reflexivity.
Defined.

(** X15: loading a file and then asserting that it is binary yields, when it
    yields anything, the decoded [uint8] array itself, and that array holds
    no value besides 0 and 255: the pair of calls either hands over a binary
    mask untouched or raises. *)
Theorem load_then_assert_postcondition Image_open pop imagePath imageName image' :
  loadSegmentationImage Image_open imagePath
    ≫= (λ image, assertBinaryImage pop image imageName) = Ok image' →
  loadSegmentationImage Image_open imagePath = Ok image'
  ∧ (∃ px, image' = np.U8 px)
  ∧ np.unique image' ⊆ {[ 0%Qc; Qc_of_Z 255 ]}.
Proof.
  destruct (loadSegmentationImage Image_open imagePath) as [image|e] eqn:Hload;
    [|done].
  cbn [mbind result_bind]. intros Hassert.
  apply loadSegmentationImage_Ok
    in Hload as (decoded & pixels & _ & _ & [[_ ->]|[_ ->]]);
    apply assertBinaryImage_uint8_Ok in Hassert as [-> Hsub];
    (split; [done|]); (split; [by eexists|done]).
Qed.

Lemma load_then_assert_postcondition_witness :
  loadSegmentationImage open_binary
    {| path_str := "masks/ISIC_0000123.png"; path_name := "ISIC_0000123.png" |}
    = Ok (np.U8 [0; 255; 255; 0])
  ∧ (∃ px, np.U8 [0; 255; 255; 0] = np.U8 px)
  ∧ np.unique (np.U8 [0; 255; 255; 0]) ⊆ {[ 0%Qc; Qc_of_Z 255 ]}.
Proof.
  apply (load_then_assert_postcondition open_binary pop_first
           {| path_str := "masks/ISIC_0000123.png"; path_name := "ISIC_0000123.png" |}
           "ISIC_0000123.png" (np.U8 [0; 255; 255; 0])).
  vm_compute. reflexivity.
Defined.

Lemma unique_convert_L (bits : list Z) :
  np.unique (np.U8 ((λ v, if v =? 0 then 0 else 255) <$> bits))
  ⊆ {[ 0%Qc; Qc_of_Z 255 ]}.
Proof.
  intros x. cbn [np.unique].
  rewrite elem_of_list_to_set, <- list_fmap_compose, list_elem_of_fmap.
  intros (v & -> & _). cbn [compose].
  destruct (v =? 0).
  - apply elem_of_union_l, elem_of_singleton. apply Z2Qc_inj_0.
  - by apply elem_of_union_r, elem_of_singleton.
Qed.

(** X16: a 1-bit image whose pixel data can be read always passes: it is
    promoted to greyscale, its set pixels become 255 and the others 0, and
    [assertBinaryImage] returns that array as it is. *)
Theorem load_then_assert_one_bit Image_open pop imagePath imageName decoded bits :
  Image_open (path_str imagePath) = inr decoded → mode decoded = "1" →
  load decoded = Ok bits →
  loadSegmentationImage Image_open imagePath
    ≫= (λ image, assertBinaryImage pop image imageName)
  = Ok (np.U8 ((λ v, if v =? 0 then 0 else 255) <$> bits)).
Proof.
  intros Hopen Hmode Hload. unfold loadSegmentationImage. rewrite Hopen.
  cbn [mbind result_bind].
  rewrite (decide_True (P := mode decoded = "1")) by done.
  unfold convert_L. rewrite Hload.
  cbn [mbind result_bind mret result_ret mode].
  rewrite (decide_False (P := "L" ≠ "L")) by (by intros []).
  unfold np_array. cbn [load mbind result_bind mret result_ret].
  apply assertBinaryImage_binary, unique_convert_L.
Qed.

Lemma load_then_assert_one_bit_witness :
  loadSegmentationImage open_one_bit
    {| path_str := "masks/ISIC_0000123.png"; path_name := "ISIC_0000123.png" |}
    ≫= (λ image, assertBinaryImage pop_first image "ISIC_0000123.png")
  = Ok (np.U8 ((λ v, if v =? 0 then 0 else 255) <$> [0; 1; 1; 0])).
Proof.
  apply (load_then_assert_one_bit open_one_bit pop_first
           {| path_str := "masks/ISIC_0000123.png"; path_name := "ISIC_0000123.png" |}
           "ISIC_0000123.png"
           {| mode := "1"; load := Ok [0; 1; 1; 0] |} [0; 1; 1; 0]).
  - reflexivity.
  - reflexivity.
  - reflexivity.
Defined.



(** * Further properties of the specificity at a fixed sensitivity *)

Lemma StronglySorted_lookup_le (l : list Qc) (i j : nat) (a b : Qc) :
  StronglySorted Qcle l → (i ≤ j)%nat → l !! i = Some a → l !! j = Some b →
  (a ≤ b)%Qc.
Proof.
  intros Hsorted. revert i j.
  induction Hsorted as [|x l Hl IH Hx]; intros i j Hij Hi Hj; [done|].
  destruct i as [|i], j as [|j]; simplify_eq/=.
  - reflexivity.
  - eapply Forall_lookup_1 in Hx; [exact Hx|exact Hj].
  - lia.
  - apply (IH i j); [lia|done..].
Qed.

Lemma Qc_one_minus_le (a b : Qc) : (a ≤ b)%Qc → (1 - b ≤ 1 - a)%Qc.
Proof.
  intros Hab. unfold Qcminus. apply Qcplus_le_mono_l. by apply Qcopp_le_compat.
Qed.

Lemma Qc_one_minus_nonneg (a : Qc) : (a ≤ 1)%Qc → (0 ≤ 1 - a)%Qc.
Proof. intros Ha. by apply Qcle_minus_iff in Ha. Qed.

Lemma Qc_one_minus_le_one (a : Qc) : (0 ≤ a)%Qc → (1 - a ≤ 1)%Qc.
Proof.
  intros Ha. apply Qc_one_minus_le in Ha.
  replace (1 - 0)%Qc with 1%Qc in Ha by ring. done.
Qed.

(** The record [computeSPECMetrics] returns, with its value tied to what the
    scan finds. *)
Lemma computeSPECMetrics_Ok
    (roc_curve : list Z → list Qc → result (list Qc * list Qc * list Qc))
    (format_g : Qc → string) truthValues testValues sensitivityThreshold
    falsePositiveRates truePositiveRates thresholds :
  roc_curve truthValues testValues
    = Ok (falsePositiveRates, truePositiveRates, thresholds) →
  length falsePositiveRates = length truePositiveRates →
  ∃ metricName trueNegativeRate,
    computeSPECMetrics roc_curve format_g truthValues testValues sensitivityThreshold
      = Ok [ {| name := metricName; value := Some trueNegativeRate |} ]
    ∧ match first_reaching 0 truePositiveRates sensitivityThreshold with
      | Some position =>
          ∃ falsePositiveRate,
            falsePositiveRates !! position = Some falsePositiveRate
            ∧ trueNegativeRate = (1 - falsePositiveRate)%Qc
      | None => trueNegativeRate = 0%Qc
      end.
Proof.
  intros Hroc Hlen. unfold computeSPECMetrics. rewrite Hroc.
  cbn [mbind result_bind].
  destruct (first_reaching 0 truePositiveRates sensitivityThreshold)
    as [position|] eqn:Hscan.
  - pose proof (first_reaching_Some _ _ _ _ Hscan) as (i & rate & -> & Hi & _).
    cbn [Nat.add]. unfold getitem.
    destruct (falsePositiveRates !! i) as [falsePositiveRate|] eqn:Hfpr.
    + cbn [mbind result_bind mret result_ret]. eexists _, _. split; [done|].
      by exists falsePositiveRate.
    + apply lookup_ge_None in Hfpr. apply lookup_lt_Some in Hi. lia.
  - cbn [mbind result_bind mret result_ret]. by eexists _, _.
Qed.

(** X18: when the false-positive rates of the curve lie between 0 and 1, the
    specificity that [computeSPECMetrics] reports lies between 0 and 1, for
    any threshold. *)
Theorem computeSPECMetrics_range
    (roc_curve : list Z → list Qc → result (list Qc * list Qc * list Qc))
    (format_g : Qc → string) truthValues testValues sensitivityThreshold
    falsePositiveRates truePositiveRates thresholds :
  roc_curve truthValues testValues
    = Ok (falsePositiveRates, truePositiveRates, thresholds) →
  length falsePositiveRates = length truePositiveRates →
  Forall (λ rate, 0 ≤ rate ≤ 1)%Qc falsePositiveRates →
  ∃ metricName trueNegativeRate,
    computeSPECMetrics roc_curve format_g truthValues testValues sensitivityThreshold
      = Ok [ {| name := metricName; value := Some trueNegativeRate |} ]
    ∧ (0 ≤ trueNegativeRate ≤ 1)%Qc.
Proof.
  intros Hroc Hlen Hrates.
  destruct (computeSPECMetrics_Ok roc_curve format_g truthValues testValues
              sensitivityThreshold _ _ _ Hroc Hlen)
    as (metricName & trueNegativeRate & Hresult & Hvalue).
  exists metricName, trueNegativeRate. split; [done|].
  destruct (first_reaching 0 truePositiveRates sensitivityThreshold).
  - destruct Hvalue as (falsePositiveRate & Hfpr & ->).
    apply (Forall_lookup_1 _ _ _ _ Hrates) in Hfpr as [H0 H1].
    split; [by apply Qc_one_minus_nonneg|by apply Qc_one_minus_le_one].
  - by subst.
Qed.

Lemma computeSPECMetrics_range_witness :
  ∃ metricName trueNegativeRate,
    computeSPECMetrics roc_curve_separated percent.g [1; 0]
        [Q2Qc (9 # 10); Q2Qc (1 # 10)] (Q2Qc (82 # 100))
      = Ok [ {| name := metricName; value := Some trueNegativeRate |} ]
    ∧ (0 ≤ trueNegativeRate ≤ 1)%Qc.
Proof.
  apply (computeSPECMetrics_range roc_curve_separated percent.g [1; 0]
           [Q2Qc (9 # 10); Q2Qc (1 # 10)] (Q2Qc (82 # 100))
           [0%Qc; 0%Qc; 1%Qc] [0%Qc; 1%Qc; 1%Qc]
           [Q2Qc (19 # 10); Q2Qc (9 # 10); Q2Qc (1 # 10)]).
  - reflexivity.
  - reflexivity.
  - apply (bool_decide_unpack _). vm_compute. exact I.
Defined.

(** X19: asking for more sensitivity never buys more specificity: when the
    false-positive rates of the curve do not decrease along it and do not
    exceed 1, the value reported for a threshold is at most the value
    reported for any lower threshold. *)
Theorem computeSPECMetrics_monotone
    (roc_curve : list Z → list Qc → result (list Qc * list Qc * list Qc))
    (format_g : Qc → string) truthValues testValues (lower higher : Qc)
    falsePositiveRates truePositiveRates thresholds :
  roc_curve truthValues testValues
    = Ok (falsePositiveRates, truePositiveRates, thresholds) →
  length falsePositiveRates = length truePositiveRates →
  StronglySorted Qcle falsePositiveRates →
  Forall (λ rate, rate ≤ 1)%Qc falsePositiveRates →
  (lower ≤ higher)%Qc →
  ∃ nameLower atLower nameHigher atHigher,
    computeSPECMetrics roc_curve format_g truthValues testValues lower
      = Ok [ {| name := nameLower; value := Some atLower |} ]
    ∧ computeSPECMetrics roc_curve format_g truthValues testValues higher
      = Ok [ {| name := nameHigher; value := Some atHigher |} ]
    ∧ (atHigher ≤ atLower)%Qc.
Proof.
  intros Hroc Hlen Hsorted Hrates Hle.
  destruct (computeSPECMetrics_Ok roc_curve format_g truthValues testValues
              lower _ _ _ Hroc Hlen)
    as (nameLower & atLower & HresultL & HvalueL).
  destruct (computeSPECMetrics_Ok roc_curve format_g truthValues testValues
              higher _ _ _ Hroc Hlen)
    as (nameHigher & atHigher & HresultH & HvalueH).
  exists nameLower, atLower, nameHigher, atHigher.
  split; [done|]. split; [done|].
  assert (HnonnegL : (0 ≤ atLower)%Qc).
  { destruct (first_reaching 0 truePositiveRates lower).
    - destruct HvalueL as (fpr & Hfpr & ->).
      apply Qc_one_minus_nonneg.
      exact (Forall_lookup_1 _ _ _ _ Hrates Hfpr).
    - by subst. }
  destruct (first_reaching 0 truePositiveRates higher) as [iH|] eqn:HscanH;
    [|by subst].
  destruct HvalueH as (fprH & HfprH & ->).
  apply first_reaching_Some in HscanH as (i & rateH & -> & HiH & HreachH & _).
  cbn [Nat.add] in HfprH.
  destruct (first_reaching 0 truePositiveRates lower) as [iL|] eqn:HscanL.
  - destruct HvalueL as (fprL & HfprL & ->).
    apply first_reaching_Some in HscanL as (k & rateL & -> & HiL & _ & Hbefore).
    cbn [Nat.add] in HfprL. apply Qc_one_minus_le.
    apply (StronglySorted_lookup_le falsePositiveRates k i); [done| |done..].
    destruct (decide (k ≤ i)%nat) as [|Hki]; [done|]. exfalso.
    assert (rateH < lower)%Qc as Hlt by (apply (Hbefore i); [lia|done]).
    apply Qclt_not_le in Hlt. apply Hlt. by etrans.
  - exfalso.
    assert (rateH < lower)%Qc as Hlt.
    { eapply first_reaching_None; [done|]. by eapply list_elem_of_lookup_2. }
    apply Qclt_not_le in Hlt. apply Hlt. by etrans.
Qed.

Lemma computeSPECMetrics_monotone_witness :
  ∃ nameLower atLower nameHigher atHigher,
    computeSPECMetrics roc_curve_overlapping percent.g [1; 0; 1; 0]
        [Q2Qc (9 # 10); Q2Qc (8 # 10); Q2Qc (7 # 10); Q2Qc (1 # 10)] (Q2Qc (1 # 2))
      = Ok [ {| name := nameLower; value := Some atLower |} ]
    ∧ computeSPECMetrics roc_curve_overlapping percent.g [1; 0; 1; 0]
        [Q2Qc (9 # 10); Q2Qc (8 # 10); Q2Qc (7 # 10); Q2Qc (1 # 10)] (Q2Qc (89 # 100))
      = Ok [ {| name := nameHigher; value := Some atHigher |} ]
    ∧ (atHigher ≤ atLower)%Qc.
Proof.
  apply (computeSPECMetrics_monotone roc_curve_overlapping percent.g [1; 0; 1; 0]
           [Q2Qc (9 # 10); Q2Qc (8 # 10); Q2Qc (7 # 10); Q2Qc (1 # 10)]
           (Q2Qc (1 # 2)) (Q2Qc (89 # 100))
           [0%Qc; 0%Qc; Q2Qc (1 # 2); Q2Qc (1 # 2); 1%Qc]
           [0%Qc; Q2Qc (1 # 2); Q2Qc (1 # 2); 1%Qc; 1%Qc]
           [Q2Qc (19 # 10); Q2Qc (9 # 10); Q2Qc (8 # 10); Q2Qc (7 # 10); Q2Qc (1 # 10)]).
  - reflexivity.
  - reflexivity.
  - apply (bool_decide_unpack _). vm_compute. exact I.
  - apply (bool_decide_unpack _). vm_compute. exact I.
  - apply (bool_decide_unpack _). vm_compute. exact I.
Defined.
